(** * DailyFlow: the Pomodoro timer, the habit streak engine and the
      persistence adapter of [App.jsx], embedded in Rocq.

    The repository ships two revisions of the application component
    ([src/unnamed/part_000] and [src/unnamed/part_001]).  The Pomodoro hook
    and [loadState] behave identically in both; the habit handlers are written
    differently and are embedded once per revision, in [Part000] and
    [Part001]. *)

From Stdlib Require Import Ascii.
From stdpp Require Import base numbers list strings gmap pretty.

Local Open Scope Z_scope.

(** ** JavaScript operators used by the source *)

(** [a || b] on numbers: [0] is falsy, every other number is truthy. *)
Definition js_or (a b : Z) : Z := if a =? 0 then b else a.

(** [a % b === 0].  The remainder takes the sign of the dividend
    ([Z.rem]); [a % 0] is [NaN], which is not [=== 0]. *)
Definition js_rem_is_zero (a b : Z) : bool :=
  if b =? 0 then false else Z.rem a b =? 0.

(** ** Pomodoro timer ([usePomodoro]) *)

(** The three mode strings ["work"], ["short"], ["long"]. *)
Inductive Mode := M_work | M_short | M_long.

Global Instance Mode_eq_dec : EqDecision Mode.
Proof. solve_decision. Defined.

(** [settings]: minutes per phase and work phases per long break. *)
Record Settings := mkSettings {
  work : Z;
  short : Z;
  long : Z;
  cycles : Z
}.

Global Instance Settings_eq_dec : EqDecision Settings.
Proof. solve_decision. Defined.

(** Default parameter of [usePomodoro]. *)
Definition initial_default : Settings :=
  {| work := 25; short := 5; long := 15; cycles := 4 |}.

(** [settings[k]] for a mode string [k]. *)
Definition settings_get (st : Settings) (k : Mode) : Z :=
  match k with
  | M_work => work st
  | M_short => short st
  | M_long => long st
  end.

(** The hook's state: the four [useState] cells and [cyclesDoneRef.current]. *)
Record PState := mkPState {
  settings : Settings;
  mode : Mode;
  secondsLeft : Z;
  running : bool;
  cyclesDone : Z
}.

(** A queued state update: a call to one of the [useState] setters with a
    plain value. *)
Inductive Update :=
  | SetMode (m : Mode)
  | SetSecondsLeft (z : Z)
  | SetRunning (b : bool).

Definition apply_update (st : PState) (u : Update) : PState :=
  match u with
  | SetMode m =>
      {| settings := settings st; mode := m; secondsLeft := secondsLeft st;
         running := running st; cyclesDone := cyclesDone st |}
  | SetSecondsLeft z =>
      {| settings := settings st; mode := mode st; secondsLeft := z;
         running := running st; cyclesDone := cyclesDone st |}
  | SetRunning b =>
      {| settings := settings st; mode := mode st; secondsLeft := secondsLeft st;
         running := b; cyclesDone := cyclesDone st |}
  end.

(** Updates are committed in the order they were enqueued. *)
Definition commit (st : PState) (q : list Update) : PState :=
  fold_left apply_update q st.

Definition set_cyclesDone (c : Z) (st : PState) : PState :=
  {| settings := settings st; mode := mode st; secondsLeft := secondsLeft st;
     running := running st; cyclesDone := c |}.

(** [(settings.work || 25) * 60] *)
Definition work_seconds (st : Settings) : Z := js_or (work st) 25 * 60.

(** The updater passed to [setSecondsLeft] by the interval callback, applied
    to the current value [s].  It reads [mode], [settings] and the ref from the
    closure, and yields its return value, the new [cyclesDoneRef.current] and
    the setter calls it made while running. *)
Definition interval_updater (st : PState) (s : Z) : Z * Z * list Update :=
  if s <=? 1 then
    match mode st with
    | M_work =>
        let c := cyclesDone st + 1 in
        let next := if js_rem_is_zero c (cycles (settings st)) then M_long else M_short in
        (0, c,
         [SetMode next;
          SetSecondsLeft
            (js_or (match next with
                    | M_long => long (settings st)
                    | _ => short (settings st)
                    end) 5 * 60)])
    | _ =>
        (0, cyclesDone st,
         [SetMode M_work; SetSecondsLeft (work_seconds (settings st))])
    end
  else (s - 1, cyclesDone st, []).

(** One firing of the [setInterval] callback when React runs the updater while
    rendering.  It does so whenever the update before the firing changed the
    state: an ordinary tick, or the [start()] that set the timer running.  The
    setter calls made inside the updater are then applied after the value it
    returns, so a nested [setSecondsLeft] overrides the returned [0]. *)
Definition interval_callback (st : PState) : PState :=
  let '(r, c, q) := interval_updater st (secondsLeft st) in
  commit (set_cyclesDone c (apply_update st (SetSecondsLeft r))) q.

(** The same firing when React runs the updater at dispatch.  It does so when
    the update before the firing changed nothing, such as a [start()] on a
    timer that is already running.  The setter calls made inside the updater
    are then queued first and the value it returns is applied last, so the
    returned [0] overrides a nested [setSecondsLeft]. *)
Definition interval_callback_at_dispatch (st : PState) : PState :=
  let '(r, c, q) := interval_updater st (secondsLeft st) in
  apply_update (set_cyclesDone c (commit st q)) (SetSecondsLeft r).

(** One second of wall-clock time, the firing taken in the order of
    [interval_callback].  The effect installs the interval only while
    [running] ([if (!running) return;]) and its cleanup clears it, so the
    callback fires exactly when [running] holds. *)
Definition tick (st : PState) : PState :=
  if running st then interval_callback st else st.

(** One second of wall-clock time, the firing taken in the order of
    [interval_callback_at_dispatch]. *)
Definition tick_at_dispatch (st : PState) : PState :=
  if running st then interval_callback_at_dispatch st else st.

Definition start (st : PState) : PState := commit st [SetRunning true].

Definition pause (st : PState) : PState := commit st [SetRunning false].

Definition reset (st : PState) : PState :=
  commit (set_cyclesDone 0 (commit st [SetRunning false]))
         [SetMode M_work; SetSecondsLeft (work_seconds (settings st))].

Definition setPreset (k : Mode) (st : PState) : PState :=
  commit st
    [SetMode k;
     SetSecondsLeft (js_or (settings_get (settings st) k) (work (settings st)) * 60);
     SetRunning false].

(** [setSettings s'] followed by the effect that depends on [settings.work]:
    when the work length changed, the remaining time is reloaded. *)
Definition setSettings (s' : Settings) (st : PState) : PState :=
  let st' := {| settings := s'; mode := mode st; secondsLeft := secondsLeft st;
                running := running st; cyclesDone := cyclesDone st |} in
  if bool_decide (work s' = work (settings st)) then st'
  else commit st' [SetSecondsLeft (work_seconds s')].

(** The state after the first render of [usePomodoro initial] and its mount
    effect. *)
Definition usePomodoro (initial : Settings) : PState :=
  commit {| settings := initial; mode := M_work; secondsLeft := work initial * 60;
            running := false; cyclesDone := 0 |}
         [SetSecondsLeft (work_seconds initial)].

(** What can happen to the hook between two renders. *)
Inductive Event :=
  | Start
  | Pause
  | Reset
  | Preset (k : Mode)
  | NewSettings (s : Settings)
  | Tick.

(** One event, a tick being taken in the order of [interval_callback]. *)
Definition step (st : PState) (e : Event) : PState :=
  match e with
  | Start => start st
  | Pause => pause st
  | Reset => reset st
  | Preset k => setPreset k st
  | NewSettings s => setSettings s st
  | Tick => tick st
  end.

Definition run (evs : list Event) (st : PState) : PState :=
  fold_left step evs st.

(** One event, a tick being taken in either order: which of the two React
    takes depends on whether the update before it changed the state. *)
Inductive step_to : PState → Event → PState → Prop :=
  | step_while_rendering (st : PState) (e : Event) : step_to st e (step st e)
  | step_at_dispatch (st : PState) : step_to st Tick (tick_at_dispatch st).

(** The states a trace can lead to. *)
Inductive runs_to : list Event → PState → PState → Prop :=
  | runs_nil (st : PState) : runs_to [] st st
  | runs_cons (e : Event) (evs : list Event) (st st' st'' : PState) :
      step_to st e st' → runs_to evs st' st'' → runs_to (e :: evs) st st''.

(** [ticks n st]: [n] seconds elapse with no other event. *)
Definition ticks (n : nat) (st : PState) : PState := Nat.iter n tick st.

(** A tick that exhausts a work phase. *)
Definition completes_work (st : PState) : bool :=
  running st && bool_decide (mode st = M_work) && (secondsLeft st <=? 1).

(** A tick that exhausts a break. *)
Definition completes_break (st : PState) : bool :=
  running st && negb (bool_decide (mode st = M_work)) && (secondsLeft st <=? 1).

Definition positive_settings (s : Settings) : Prop :=
  0 < work s ∧ 0 < short s ∧ 0 < long s ∧ 0 < cycles s.

(** The number of minutes loaded for a configured length [d] by
    [(d || fallback) * 60]. *)
Definition effective_minutes (d fallback : Z) : Z :=
  if bool_decide (d = 0) then fallback else d.

(** ** Habit tracker *)

(** A habit as [addHabit] creates it.  [lastSeen] is [null] ([None]) or a
    day key such as ["2024-05-01"]. *)
Record HabitItem := mkHabit {
  id : string;
  title : string;
  toggledToday : bool;
  streak : Z;
  lastSeen : option string
}.

Global Instance HabitItem_eq_dec : EqDecision HabitItem.
Proof. solve_decision. Defined.

(** [h.lastSeen === todayKey] *)
Definition seen_today (todayKey : string) (h : HabitItem) : bool :=
  bool_decide (lastSeen h = Some todayKey).

(** [h.lastSeen || null]: the empty string is falsy. *)
Definition or_null (k : option string) : option string :=
  match k with
  | Some EmptyString => None
  | _ => k
  end.

(** [addHabit]'s new record, for an id drawn by [uid()]. *)
Definition new_habit (i t : string) : HabitItem :=
  {| id := i; title := t; toggledToday := false; streak := 0; lastSeen := None |}.

(** ** Persistence adapter *)

#[local] Set Warnings "-register-all".

(** A parsed JSON document. *)
Inductive JSON :=
  | JNull
  | JBool (b : bool)
  | JNum (z : Z)
  | JStr (s : string)
  | JArr (l : list JSON)
  | JObj (o : gmap string JSON).

(** The outcome of evaluating a JavaScript expression: a value, or an
    exception propagating to the caller. *)
Inductive Completion (A : Type) :=
  | Return (a : A)
  | Throw (e : string).
Arguments Return {A} a.
Arguments Throw {A} e.

(** [try { body } catch (e) { handler e }] *)
Definition try_catch {A} (body : Completion A) (handler : string → Completion A) : Completion A :=
  match body with
  | Return a => Return a
  | Throw e => handler e
  end.

Definition STORAGE_KEY : string := "dailyflow_v1".

(** [!raw] for the result of [localStorage.getItem]: [null] and the empty
    string are falsy. *)
Definition falsy_raw (raw : option string) : bool :=
  match raw with
  | None | Some EmptyString => true
  | Some _ => false
  end.

(** [v?.k] for one of the five snapshot fields; [None] is [undefined].
    Only an object has such a property. *)
Definition get_field (v : JSON) (k : string) : option JSON :=
  match v with
  | JObj o => o !! k
  | _ => None
  end.

(** [a ?? b] *)
Definition nullish (a : option JSON) (b : JSON) : JSON :=
  match a with
  | None | Some JNull => b
  | Some v => v
  end.

Definition JSON_of_settings (s : Settings) : JSON :=
  JObj (<["work" := JNum (work s)]>
        (<["short" := JNum (short s)]>
         (<["long" := JNum (long s)]>
          (<["cycles" := JNum (cycles s)]> ∅)))).

(** The initial values of the persisted state cells of [App]. *)
Record AppState := mkAppState {
  dark : JSON;
  todos : JSON;
  habits : JSON;
  notes : JSON;
  pomodoro : JSON
}.

(** The initial [useState] values of [App], given what [loadState]
    returned.  [usePomodoro(persisted?.pomodoro ?? undefined)] takes its
    default parameter when the argument is [undefined]. *)
Definition App_init (persisted : JSON) : AppState :=
  {| dark := nullish (get_field persisted "dark") (JBool false);
     todos := nullish (get_field persisted "todos") (JArr []);
     habits := nullish (get_field persisted "habits") (JArr []);
     notes := nullish (get_field persisted "notes") (JStr EmptyString);
     pomodoro := nullish (get_field persisted "pomodoro") (JSON_of_settings initial_default) |}.

(** [localStorage] is a finite map from keys to strings; [getItem] gives
    [null] ([None]) for a key that is not stored. *)
Definition getItem (localStorage : gmap string string) (k : string) : option string :=
  localStorage !! k.

(** ** The two revisions of the habit handlers and of [loadState] *)

Module Part001.

(** The record built for the habit whose id matches. *)
Definition toggleToday (todayKey : string) (h : HabitItem) : HabitItem :=
  let toggled := negb (seen_today todayKey h && toggledToday h) in
  let streak' :=
    if toggled && seen_today todayKey h then streak h
    else if toggled then streak h + 1 else streak h in
  {| id := id h; title := title h; toggledToday := toggled;
     lastSeen := Some todayKey; streak := streak' |}.

Definition toggleHabit (i todayKey : string) (s : list HabitItem) : list HabitItem :=
  map (fun h => if negb (bool_decide (id h = i)) then h else toggleToday todayKey h) s.

(** The mount effect of [App] that clears yesterday's toggles. *)
Definition dailyReset (todayKey : string) (hs : list HabitItem) : list HabitItem :=
  map (fun h =>
         {| id := id h; title := title h; streak := streak h;
            lastSeen := or_null (lastSeen h);
            toggledToday := if seen_today todayKey h then toggledToday h else false |})
      hs.

Section Load.

(** [JSON.parse], a builtin of the host: it returns the document or
    throws a [SyntaxError]. *)
Variable JSON_parse : string → Completion JSON.

(** [loadState] returns its completion and the lines it wrote with
    [console.error]. *)
Definition loadState (localStorage : gmap string string) : Completion JSON * list string :=
  let raw := getItem localStorage STORAGE_KEY in
  match (if falsy_raw raw then Return JNull
         else match raw with
              | Some r => JSON_parse r
              | None => Return JNull
              end) with
  | Return v => (Return v, [])
  | Throw e => (Return JNull, ["Failed to load state " +:+ e])
  end.

End Load.

End Part001.

Module Part000.

Definition toggleToday (todayKey : string) (h : HabitItem) : HabitItem :=
  {| id := id h; title := title h;
     toggledToday := negb (seen_today todayKey h && toggledToday h);
     streak :=
       if negb (seen_today todayKey h && toggledToday h) && seen_today todayKey h
       then streak h
       else if negb (seen_today todayKey h && toggledToday h)
            then streak h + 1
            else streak h;
     lastSeen := Some todayKey |}.

Definition toggleHabit (i todayKey : string) (s : list HabitItem) : list HabitItem :=
  map (fun h => if bool_decide (id h = i) then toggleToday todayKey h else h) s.

Definition dailyReset (todayKey : string) (hs : list HabitItem) : list HabitItem :=
  map (fun h =>
         {| id := id h; title := title h; streak := streak h;
            lastSeen := lastSeen h;
            toggledToday := if seen_today todayKey h then toggledToday h else false |})
      hs.

Section Load.

Variable JSON_parse : string → Completion JSON.

Definition loadState (localStorage : gmap string string) : Completion JSON :=
  try_catch
    (let raw := getItem localStorage STORAGE_KEY in
     if falsy_raw raw then Return JNull
     else match raw with
          | Some r => JSON_parse r
          | None => Return JNull
          end)
    (fun _ => Return JNull).

End Load.

End Part000.

(** [App]'s first render: [loadState()] and then the initial state cells.
    A [Throw] from [loadState] would propagate out of the component. *)
Definition App_000 (JSON_parse : string → Completion JSON)
    (localStorage : gmap string string) : Completion AppState :=
  match Part000.loadState JSON_parse localStorage with
  | Return persisted => Return (App_init persisted)
  | Throw e => Throw e
  end.

Definition App_001 (JSON_parse : string → Completion JSON)
    (localStorage : gmap string string) : Completion AppState :=
  match fst (Part001.loadState JSON_parse localStorage) with
  | Return persisted => Return (App_init persisted)
  | Throw e => Throw e
  end.

(** ** Todo list *)

Module Todo.

(** A todo as [addTodo] creates it. *)
Record TodoItem := mkTodo {
  id : string;
  text : string;
  done : bool;
  created : Z
}.

Global Instance TodoItem_eq_dec : EqDecision TodoItem.
Proof. solve_decision. Defined.

End Todo.

(** [!s] for a string: only the empty string is falsy. *)
Definition falsy_string (s : string) : bool :=
  match s with
  | EmptyString => true
  | _ => false
  end.

(** [s.includes(q)]: [q] occurs in [s] as a contiguous substring. *)
Fixpoint includes (s q : string) : bool :=
  String.prefix q s ||
  match s with
  | EmptyString => false
  | String _ s' => includes s' q
  end.

Section Host.

(** [String.prototype.trim] and [String.prototype.toLowerCase], builtins of
    the host. *)
Variable trim : string → string.
Variable toLowerCase : string → string.

(** [addTodo], with the values that [uid()] and [Date.now()] return.
    The older revision tests [!text?.trim()]. *)
Definition addTodo (new_id : string) (now : Z) (text : string)
    (s : list Todo.TodoItem) : list Todo.TodoItem :=
  if falsy_string (trim text) then s
  else {| Todo.id := new_id; Todo.text := trim text; Todo.done := false;
          Todo.created := now |} :: s.

(** The other revision tests [!text || !text.trim()]. *)
Definition addTodo_001 (new_id : string) (now : Z) (text : string)
    (s : list Todo.TodoItem) : list Todo.TodoItem :=
  if falsy_string text || falsy_string (trim text) then s
  else {| Todo.id := new_id; Todo.text := trim text; Todo.done := false;
          Todo.created := now |} :: s.

(** [todos.filter(t => t.text.toLowerCase().includes(query.toLowerCase()))] *)
Definition filtered (query : string) (todos : list Todo.TodoItem) : list Todo.TodoItem :=
  List.filter (fun t => includes (toLowerCase (Todo.text t)) (toLowerCase query)) todos.

(** [addHabit]: the new habit goes to the end of the list. *)
Definition addHabit (new_id title : string) (s : list HabitItem) : list HabitItem :=
  if falsy_string (trim title) then s
  else s ++ [new_habit new_id (trim title)].

Definition addHabit_001 (new_id title : string) (s : list HabitItem) : list HabitItem :=
  if falsy_string title || falsy_string (trim title) then s
  else s ++ [new_habit new_id (trim title)].

End Host.

Definition toggleTodo (i : string) (s : list Todo.TodoItem) : list Todo.TodoItem :=
  map (fun t => if bool_decide (Todo.id t = i)
                then {| Todo.id := Todo.id t; Todo.text := Todo.text t;
                        Todo.done := negb (Todo.done t); Todo.created := Todo.created t |}
                else t) s.

Definition delTodo (i : string) (s : list Todo.TodoItem) : list Todo.TodoItem :=
  List.filter (fun t => negb (bool_decide (Todo.id t = i))) s.

(** [todos.filter(t => !t.done).length], the count shown as "remaining". *)
Definition remaining (todos : list Todo.TodoItem) : nat :=
  length (List.filter (fun t => negb (Todo.done t)) todos).

Definition deleteHabit (i : string) (s : list HabitItem) : list HabitItem :=
  List.filter (fun h => negb (bool_decide (id h = i))) s.

(** Toggles of one habit on a sequence of days, oldest first. *)
Definition toggle_on_days (days : list string) (h : HabitItem) : HabitItem :=
  fold_left (fun h d => Part001.toggleToday d h) days h.

(** How many entries of [days] differ from the entry before them, [last]
    standing before the first. *)
Fixpoint day_changes (last : option string) (days : list string) : Z :=
  match days with
  | [] => 0
  | d :: ds => (if bool_decide (last = Some d) then 0 else 1) + day_changes (Some d) ds
  end.

(** ** Time display *)

(** [s.padStart(n, c)] for a one-character pad string. *)
Definition padStart (n : nat) (c : Ascii.ascii) (s : string) : string :=
  Nat.iter (n - String.length s) (String c) s.

(** [formatTime]: [Math.floor(s / 60)] is [s / 60] rounded down, [s % 60]
    keeps the sign of [s], and [String(n)] is the decimal numeral of an
    integer. *)
Definition formatTime (s : Z) : string :=
  padStart 2 "0"%char (pretty (s `div` 60)) +:+ ":" +:+
  padStart 2 "0"%char (pretty (Z.rem s 60)).

(** The character of a decimal digit. *)
Definition digit (d : Z) : Ascii.ascii := Ascii.ascii_of_nat (48 + Z.to_nat d).

(** The display [mm:ss] written digit by digit. *)
Definition two_by_two (s : Z) : string :=
  String (digit (s `div` 600))
    (String (digit ((s `div` 60) `mod` 10))
       (String ":"
          (String (digit ((s `mod` 60) `div` 10))
             (String (digit (s `mod` 10)) EmptyString)))).

(** ** Saving and clearing *)

(** The object [{ dark, todos, habits, notes, pomodoro: settings }]. *)
Definition snapshot (st : AppState) : JSON :=
  JObj (<["dark" := dark st]>
        (<["todos" := todos st]>
         (<["habits" := habits st]>
          (<["notes" := notes st]>
           (<["pomodoro" := pomodoro st]> ∅))))).

Section Save.

(** [JSON.stringify], a builtin of the host. *)
Variable JSON_stringify : JSON → string.

Definition saveState (state : JSON) (localStorage : gmap string string) : gmap string string :=
  <[STORAGE_KEY := JSON_stringify state]> localStorage.

(** The effect of [App] that persists the five state cells. *)
Definition persist (st : AppState) (localStorage : gmap string string) : gmap string string :=
  saveState (snapshot st) localStorage.

End Save.

(** The "Clear Data" handler once the user has confirmed: three setter calls
    and [localStorage.removeItem]. *)
Definition clearData (st : AppState) (localStorage : gmap string string)
    : AppState * gmap string string :=
  ({| dark := dark st; todos := JArr []; habits := JArr [];
      notes := JStr EmptyString; pomodoro := pomodoro st |},
   delete STORAGE_KEY localStorage).

(** A running work phase, started with the counter at [c]. *)
Definition working (s : Settings) (c : Z) : PState :=
  {| settings := s; mode := M_work; secondsLeft := work s * 60;
     running := true; cyclesDone := c |}.

(** A running break of kind [k]. *)
Definition resting (s : Settings) (k : Mode) (c : Z) : PState :=
  {| settings := s; mode := k; secondsLeft := settings_get s k * 60;
     running := true; cyclesDone := c |}.

(** No event of the trace installs new settings or selects the long-break
    preset. *)
Definition never_selects_long (evs : list Event) : Prop :=
  Forall (fun e => match e with
                   | NewSettings _ | Preset M_long => False
                   | _ => True
                   end) evs.

(** No event of the trace installs new settings. *)
Definition keeps_settings (evs : list Event) : Prop :=
  Forall (fun e => match e with
                   | NewSettings _ => False
                   | _ => True
                   end) evs.

(** * Properties *)

(** ** Pomodoro timer: basic facts *)

Lemma js_or_nonzero (a b : Z) : a ≠ 0 → js_or a b = a.
Proof. intros Ha. unfold js_or. destruct (Z.eqb_spec a 0); congruence. Qed.

Lemma js_or_zero (b : Z) : js_or 0 b = b.
Proof. reflexivity. Qed.

Lemma js_rem_is_zero_spec (a b : Z) :
  0 ≤ a → 0 < b → js_rem_is_zero a b = bool_decide (a `mod` b = 0).
Proof.
  intros Ha Hb. unfold js_rem_is_zero.
  destruct (Z.eqb_spec b 0) as [->|_]; [lia|].
  rewrite Z.rem_mod_nonneg by lia.
  destruct (Z.eqb_spec (a `mod` b) 0) as [E|E].
  - by rewrite bool_decide_eq_true_2.
  - by rewrite bool_decide_eq_false_2.
Qed.

Lemma work_seconds_nonzero (s : Settings) : work s ≠ 0 → work_seconds s = work s * 60.
Proof. intros H. unfold work_seconds. by rewrite js_or_nonzero. Qed.

(** The callback never writes [running] or [settings]. *)
Lemma interval_callback_frame (st : PState) :
  running (interval_callback st) = running st ∧
  settings (interval_callback st) = settings st.
Proof.
  unfold interval_callback, interval_updater.
  destruct (secondsLeft st <=? 1); [|done].
  destruct (mode st); [destruct (js_rem_is_zero _ _)|..]; done.
Qed.

Lemma tick_running (st : PState) : running (tick st) = running st.
Proof.
  unfold tick. destruct (running st) eqn:E; [|done].
  rewrite <- E. apply interval_callback_frame.
Qed.

Lemma tick_settings (st : PState) : settings (tick st) = settings st.
Proof.
  unfold tick. destruct (running st); [|done]. apply interval_callback_frame.
Qed.

(** A tick of a stopped timer changes nothing. *)
Lemma tick_stopped (st : PState) : running st = false → tick st = st.
Proof. intros H. unfold tick. by rewrite H. Qed.

Lemma ticks_stopped (n : nat) (st : PState) : running st = false → ticks n st = st.
Proof.
  intros H. induction n as [|n IH]; [done|].
  unfold ticks in *. simpl. rewrite IH. by apply tick_stopped.
Qed.

(** While more than one second is left, a tick of a running timer only
    decrements [secondsLeft]. *)
Lemma tick_countdown (st : PState) :
  running st = true → 1 < secondsLeft st →
  tick st = apply_update st (SetSecondsLeft (secondsLeft st - 1)).
Proof.
  intros Hr Hs. unfold tick, interval_callback, interval_updater. rewrite Hr.
  destruct (Z.leb_spec (secondsLeft st) 1); [lia|]. by destruct st.
Qed.

Lemma ticks_countdown (n : nat) (st : PState) :
  running st = true → Z.of_nat n < secondsLeft st →
  ticks n st = apply_update st (SetSecondsLeft (secondsLeft st - Z.of_nat n)).
Proof.
  intros Hr. induction n as [|n IH]; intros Hs.
  - simpl. rewrite Z.sub_0_r. by destruct st.
  - change (ticks (S n) st) with (tick (ticks n st)).
    rewrite IH by lia. rewrite tick_countdown; simpl; [|done|lia].
    f_equal. lia.
Qed.

(** The tick that exhausts a work phase. *)
Lemma tick_completes_work (st : PState) :
  completes_work st = true →
  let c := cyclesDone st + 1 in
  let next := if js_rem_is_zero c (cycles (settings st)) then M_long else M_short in
  tick st =
  {| settings := settings st; mode := next;
     secondsLeft := js_or (settings_get (settings st) next) 5 * 60;
     running := true; cyclesDone := c |}.
Proof.
  unfold completes_work. intros H.
  apply andb_true_iff in H as [H Hs]. apply andb_true_iff in H as [Hr Hm].
  apply bool_decide_eq_true in Hm.
  unfold tick, interval_callback, interval_updater. rewrite Hr, Hs, Hm. simpl.
  destruct (js_rem_is_zero _ _); by rewrite <- Hr.
Qed.

(** The tick that exhausts a break. *)
Lemma tick_completes_break (st : PState) :
  completes_break st = true →
  tick st =
  {| settings := settings st; mode := M_work;
     secondsLeft := work_seconds (settings st);
     running := true; cyclesDone := cyclesDone st |}.
Proof.
  unfold completes_break. intros H.
  apply andb_true_iff in H as [H Hs]. apply andb_true_iff in H as [Hr Hm].
  apply negb_true_iff, bool_decide_eq_false in Hm.
  unfold tick, interval_callback, interval_updater. rewrite Hr, Hs.
  destruct (mode st); [done|..]; simpl; by rewrite <- Hr.
Qed.

(** Any other tick leaves the mode and the cycle counter alone. *)
Lemma tick_no_completion (st : PState) :
  completes_work st = false → completes_break st = false →
  mode (tick st) = mode st ∧ cyclesDone (tick st) = cyclesDone st.
Proof.
  unfold completes_work, completes_break, tick, interval_callback, interval_updater.
  destruct (running st); [|done].
  destruct (secondsLeft st <=? 1); [|done].
  destruct (mode st); simpl; rewrite ?bool_decide_eq_true_2 by done;
    rewrite ?bool_decide_eq_false_2 by done; simpl; done.
Qed.

Lemma js_rem_is_zero_one (c : Z) : 0 < c → js_rem_is_zero 1 c = bool_decide (c = 1).
Proof.
  intros Hc. rewrite js_rem_is_zero_spec by lia.
  destruct (decide (c = 1)) as [->|Hne].
  - done.
  - rewrite Z.mod_small by lia.
    rewrite bool_decide_eq_false_2 by lia. by rewrite bool_decide_eq_false_2.
Qed.

(** The state in which [start] leaves a freshly mounted hook. *)
Lemma fresh_running (s : Settings) :
  work s ≠ 0 →
  start (usePomodoro s) =
  {| settings := s; mode := M_work; secondsLeft := work s * 60;
     running := true; cyclesDone := 0 |}.
Proof.
  intros H. unfold start, usePomodoro. simpl. by rewrite work_seconds_nonzero.
Qed.

Example scenario_25_5_15_4 :
  ticks 1500 (start (usePomodoro initial_default)) =
  {| settings := initial_default; mode := M_short; secondsLeft := 300;
     running := true; cyclesDone := 1 |}.
Proof. vm_compute. reflexivity. Qed.

(** ** Pomodoro timer: the claims *)

(** C2.  For positive settings, from a freshly mounted and started timer the
    first [work*60 - 1] ticks only count down in [work] mode, and the
    [work*60]-th tick enters the short break (the long break when
    [cycles = 1]) with that mode's full duration loaded, still running. *)
Theorem work_phase_ticks (s : Settings) :
  positive_settings s →
  let fresh := start (usePomodoro s) in
  let next := if bool_decide (cycles s = 1) then M_long else M_short in
  (∀ k : nat, Z.of_nat k < work s * 60 →
     mode (ticks k fresh) = M_work ∧
     secondsLeft (ticks k fresh) = work s * 60 - Z.of_nat k) ∧
  ticks (Z.to_nat (work s * 60)) fresh =
    {| settings := s; mode := next; secondsLeft := settings_get s next * 60;
       running := true; cyclesDone := 1 |}.
Proof.
  intros (Hw & Hs & Hl & Hc) fresh next. subst fresh.
  rewrite fresh_running by lia.
  set (st0 := {| settings := s; mode := M_work; secondsLeft := work s * 60;
                 running := true; cyclesDone := 0 |}).
  assert (Hcount : ∀ k : nat, Z.of_nat k < work s * 60 →
            ticks k st0 = apply_update st0 (SetSecondsLeft (work s * 60 - Z.of_nat k))).
  { intros k Hk. by rewrite ticks_countdown. }
  split.
  - intros k Hk. by rewrite Hcount.
  - destruct (Z.to_nat (work s * 60)) as [|m] eqn:Hn; [lia|].
    change (ticks (S m) st0) with (tick (ticks m st0)).
    rewrite Hcount by lia.
    rewrite tick_completes_work; simpl.
    + rewrite js_rem_is_zero_one by done. subst next.
      destruct (bool_decide (cycles s = 1)); simpl; by rewrite js_or_nonzero by lia.
    + unfold completes_work. simpl. apply Z.leb_le. lia.
Qed.

Lemma work_phase_ticks_witness :
  positive_settings initial_default ∧
  ticks (Z.to_nat (work initial_default * 60)) (start (usePomodoro initial_default)) =
    {| settings := initial_default; mode := M_short; secondsLeft := 300;
       running := true; cyclesDone := 1 |}.
Proof.
  assert (H : positive_settings initial_default) by (unfold positive_settings; simpl; lia).
  split; [exact H|].
  exact (proj2 (work_phase_ticks initial_default H)).
Defined.

(** A completing tick whose updater runs at dispatch makes the same
    transition and leaves the countdown at the returned [0]. *)
Lemma tick_at_dispatch_completes_work (st : PState) :
  completes_work st = true →
  let c := cyclesDone st + 1 in
  let next := if js_rem_is_zero c (cycles (settings st)) then M_long else M_short in
  tick_at_dispatch st =
  {| settings := settings st; mode := next; secondsLeft := 0;
     running := true; cyclesDone := c |}.
Proof.
  unfold completes_work. intros H.
  apply andb_true_iff in H as [H Hs]. apply andb_true_iff in H as [Hr Hm].
  apply bool_decide_eq_true in Hm.
  unfold tick_at_dispatch, interval_callback_at_dispatch, interval_updater.
  rewrite Hr, Hs, Hm. simpl.
  destruct (js_rem_is_zero _ _); by rewrite <- Hr.
Qed.

Lemma tick_at_dispatch_completes_break (st : PState) :
  completes_break st = true →
  tick_at_dispatch st =
  {| settings := settings st; mode := M_work; secondsLeft := 0;
     running := true; cyclesDone := cyclesDone st |}.
Proof.
  unfold completes_break. intros H.
  apply andb_true_iff in H as [H Hs]. apply andb_true_iff in H as [Hr Hm].
  apply negb_true_iff, bool_decide_eq_false in Hm.
  unfold tick_at_dispatch, interval_callback_at_dispatch, interval_updater.
  rewrite Hr, Hs.
  destruct (mode st); [done|..]; simpl; by rewrite <- Hr.
Qed.

(** A tick that completes nothing is the same in both orders. *)
Lemma tick_at_dispatch_other (st : PState) :
  completes_work st = false → completes_break st = false →
  tick_at_dispatch st = tick st.
Proof.
  unfold completes_work, completes_break, tick_at_dispatch, tick,
    interval_callback_at_dispatch, interval_callback, interval_updater.
  destruct (running st); [|done].
  destruct (secondsLeft st <=? 1); [|done].
  destruct (mode st); simpl; rewrite ?bool_decide_eq_true_2 by done;
    rewrite ?bool_decide_eq_false_2 by done; simpl; done.
Qed.


Lemma js_or_effective (d fallback : Z) : js_or d fallback = effective_minutes d fallback.
Proof.
  unfold js_or, effective_minutes.
  destruct (Z.eqb_spec d 0) as [E|E].
  - by rewrite bool_decide_eq_true_2.
  - by rewrite bool_decide_eq_false_2.
Qed.

(** C5, as the specification states it, fails.  A zero work length is
    below one minute, yet the timer loads 25 minutes for it, not one; and a
    negative work length is stored by [setSettings] as given and yields a
    negative countdown. *)
Lemma effective_minimum_counterexample :
  let zero := {| work := 0; short := 5; long := 15; cycles := 4 |} in
  let negative := {| work := -1; short := 5; long := 15; cycles := 4 |} in
  (work zero < 1 ∧
   secondsLeft (reset (usePomodoro zero)) = 1500 ∧
   secondsLeft (reset (usePomodoro zero)) ≠ 1 * 60) ∧
  (settings (setSettings negative (usePomodoro initial_default)) = negative ∧
   secondsLeft (setSettings negative (usePomodoro initial_default)) = -60).
Proof. vm_compute. repeat split; congruence. Qed.

(** C5, amended.  A zero length is replaced by a built-in fallback in every
    value the timer loads or asks to load: 25 minutes for work (mount, reset,
    new work length, and the value the interval callback passes to
    [setSecondsLeft] at the end of a break), 5 minutes in the value it passes
    at the end of a work phase, the work length for a preset.  A non-zero
    length is used as it is, and [setSettings] stores whatever it is given. *)
Theorem zero_setting_fallback (st : PState) (s' : Settings) (k : Mode) (s : Z) :
  secondsLeft (usePomodoro s') = effective_minutes (work s') 25 * 60 ∧
  secondsLeft (reset st) = effective_minutes (work (settings st)) 25 * 60 ∧
  secondsLeft (setPreset k st) =
    effective_minutes (settings_get (settings st) k) (work (settings st)) * 60 ∧
  settings (setSettings s' st) = s' ∧
  secondsLeft (setSettings s' st) =
    (if bool_decide (work s' = work (settings st)) then secondsLeft st
     else effective_minutes (work s') 25 * 60) ∧
  snd (interval_updater st s) =
    (if s <=? 1 then
       match mode st with
       | M_work =>
           let next :=
             if js_rem_is_zero (cyclesDone st + 1) (cycles (settings st))
             then M_long else M_short in
           [SetMode next;
            SetSecondsLeft (effective_minutes (settings_get (settings st) next) 5 * 60)]
       | _ =>
           [SetMode M_work;
            SetSecondsLeft (effective_minutes (work (settings st)) 25 * 60)]
       end
     else []).
Proof.
  split; [simpl; unfold work_seconds; by rewrite js_or_effective|].
  split; [simpl; unfold work_seconds; by rewrite js_or_effective|].
  split; [simpl; by rewrite js_or_effective|].
  split; [unfold setSettings; by destruct (bool_decide _)|].
  split.
  { unfold setSettings. destruct (bool_decide _); simpl; [done|].
    unfold work_seconds. by rewrite js_or_effective. }
  unfold interval_updater, work_seconds. destruct (s <=? 1); [|done].
  destruct (mode st); simpl; rewrite js_or_effective; [|done..].
  by destruct (js_rem_is_zero _ _).
Qed.

(** C6.  A tick, with or without a phase transition, leaves [running] as it
    was, and so does any number of ticks; of all the events of the hook, only
    [pause], [reset] and [setPreset] set it to [false]. *)
Theorem running_only_stopped_explicitly (st : PState) (n : nat) (e : Event) :
  running (interval_callback st) = running st ∧
  running (tick st) = running st ∧
  running (ticks n st) = running st ∧
  running (step st e) =
    match e with
    | Start => true
    | Pause | Reset | Preset _ => false
    | NewSettings _ | Tick => running st
    end.
Proof.
  split; [apply interval_callback_frame|].
  split; [apply tick_running|].
  split.
  - induction n as [|n IH]; [done|].
    change (ticks (S n) st) with (tick (ticks n st)). by rewrite tick_running.
  - destruct e; simpl; try done.
    + unfold setSettings. by destruct (bool_decide _).
    + apply tick_running.
Qed.

(** C7.  Once paused, the timer is not changed by any number of seconds
    passing; and [reset] always yields work mode, the full work duration, a
    stopped timer and a zero cycle counter. *)
Theorem pause_freezes_reset_restores (st : PState) (n : nat) :
  work (settings st) ≠ 0 →
  ticks n (pause st) = pause st ∧
  secondsLeft (ticks n (pause st)) = secondsLeft st ∧
  mode (reset st) = M_work ∧
  secondsLeft (reset st) = work (settings st) * 60 ∧
  running (reset st) = false ∧
  cyclesDone (reset st) = 0.
Proof.
  intros Hw.
  assert (Hp : ticks n (pause st) = pause st) by (by apply ticks_stopped).
  split; [exact Hp|]. rewrite Hp.
  repeat split. simpl. by apply work_seconds_nonzero.
Qed.

Lemma pause_freezes_reset_restores_witness :
  let st := ticks 90 (start (usePomodoro initial_default)) in
  work (settings st) ≠ 0 ∧
  secondsLeft (ticks 1000 (pause st)) = 1410 ∧
  reset st = usePomodoro initial_default.
Proof.
  intros st.
  assert (Hw : work (settings st) ≠ 0) by (vm_compute; congruence).
  split; [exact Hw|].
  destruct (pause_freezes_reset_restores st 1000 Hw) as (_ & Hs & _).
  split; [rewrite Hs|]; vm_compute; reflexivity.
Defined.

(** ** Habit tracker *)

Lemma toggleToday_agree (todayKey : string) (h : HabitItem) :
  Part000.toggleToday todayKey h = Part001.toggleToday todayKey h.
Proof. reflexivity. Qed.

Lemma toggleHabit_agree (i todayKey : string) (s : list HabitItem) :
  Part000.toggleHabit i todayKey s = Part001.toggleHabit i todayKey s.
Proof.
  unfold Part000.toggleHabit, Part001.toggleHabit.
  apply map_ext. intros h. by destruct (bool_decide (id h = i)).
Qed.

(** After a toggle the habit was seen today. *)
Lemma toggleToday_seen (todayKey : string) (h : HabitItem) :
  seen_today todayKey (Part001.toggleToday todayKey h) = true.
Proof. unfold seen_today. simpl. by apply bool_decide_eq_true_2. Qed.

(** A toggle on a day already seen flips the flag and keeps the streak. *)
Lemma toggleToday_same_day (todayKey : string) (h : HabitItem) :
  seen_today todayKey h = true →
  toggledToday (Part001.toggleToday todayKey h) = negb (toggledToday h) ∧
  streak (Part001.toggleToday todayKey h) = streak h.
Proof.
  intros H. unfold Part001.toggleToday. simpl. rewrite H.
  by destruct (toggledToday h).
Qed.

(** The first toggle of a day turns the habit on and adds one to the streak. *)
Lemma toggleToday_new_day (todayKey : string) (h : HabitItem) :
  seen_today todayKey h = false →
  toggledToday (Part001.toggleToday todayKey h) = true ∧
  streak (Part001.toggleToday todayKey h) = streak h + 1.
Proof. intros H. unfold Part001.toggleToday. simpl. by rewrite H. Qed.

(** [n + 1] toggles on a day not yet seen. *)
Lemma toggles_new_day (todayKey : string) (h : HabitItem) (n : nat) :
  seen_today todayKey h = false →
  let h' := Nat.iter (S n) (Part001.toggleToday todayKey) h in
  seen_today todayKey h' = true ∧
  toggledToday h' = Nat.even n ∧
  streak h' = streak h + 1.
Proof.
  intros H. induction n as [|n IH].
  - simpl. split; [apply toggleToday_seen|]. by apply toggleToday_new_day.
  - destruct IH as (Hseen & Hon & Hstreak).
    set (g := Nat.iter (S n) (Part001.toggleToday todayKey) h) in *.
    change (Nat.iter (S (S n)) (Part001.toggleToday todayKey) h)
      with (Part001.toggleToday todayKey g).
    cbv zeta. split; [apply toggleToday_seen|].
    destruct (toggleToday_same_day todayKey g Hseen) as [Hflip Hkeep].
    rewrite Hflip, Hkeep, Hon, Hstreak. split; [|done].
    rewrite Nat.even_succ, <- Nat.negb_even. done.
Qed.

Lemma or_null_day_key (k : option string) : k ≠ Some EmptyString → or_null k = k.
Proof. intros H. destruct k as [[|c k]|]; simpl; congruence. Qed.

(** C1.  One toggle of the matching habit, in either revision: the new flag
    is [¬ (lastSeen = today ∧ toggledToday)], [lastSeen] becomes [today], and
    the streak grows by one exactly when the habit is turned on and was last
    seen on another day or never; identity and title are kept. *)
Theorem toggle_decision_table (todayKey : string) (h : HabitItem) :
  let h' := Part001.toggleToday todayKey h in
  let same_day := bool_decide (lastSeen h = Some todayKey) in
  Part000.toggleToday todayKey h = h' ∧
  Part001.toggleHabit (id h) todayKey [h] = [h'] ∧
  Part000.toggleHabit (id h) todayKey [h] = [h'] ∧
  toggledToday h' = negb (same_day && toggledToday h) ∧
  lastSeen h' = Some todayKey ∧
  streak h' =
    match toggledToday h', same_day with
    | true, false => streak h + 1
    | true, true => streak h
    | false, _ => streak h
    end ∧
  id h' = id h ∧ title h' = title h.
Proof.
  intros h' same_day.
  split; [reflexivity|].
  split; [simpl; by rewrite bool_decide_eq_true_2|].
  split; [simpl; by rewrite bool_decide_eq_true_2|].
  subst h' same_day. unfold Part001.toggleToday, seen_today. simpl.
  destruct (bool_decide (lastSeen h = Some todayKey)), (toggledToday h); done.
Qed.

(** C4, as the specification states it, fails: two toggles on a fresh day
    leave the habit off, and the streak has still grown by one. *)
Lemma same_day_toggles_counterexample :
  let today := "2024-05-01"%string in
  let h := new_habit "h1" "Drink water" in
  let h' := Part001.toggleToday today (Part001.toggleToday today h) in
  lastSeen h ≠ Some today ∧
  ¬ (streak h' = streak h + 1 ↔
     toggledToday h' = true ∧ ¬ (lastSeen h = Some today ∧ toggledToday h = true)).
Proof.
  intros today h h'. split; [discriminate|].
  intros [Hto _]. assert (Hs : streak h' = streak h + 1) by reflexivity.
  destruct (Hto Hs) as [Hon _]. vm_compute in Hon. discriminate.
Qed.

(** C4, amended.  For a habit last seen on another day or never, after
    [n ≥ 1] toggles on the same day the flag is on exactly when [n] is odd,
    and the streak has grown by exactly one, whether the habit ends on or
    off. *)
Theorem same_day_toggles (todayKey : string) (h : HabitItem) (n : nat) :
  lastSeen h ≠ Some todayKey → (1 ≤ n)%nat →
  let h' := Nat.iter n (Part001.toggleToday todayKey) h in
  Nat.iter n (Part000.toggleToday todayKey) h = h' ∧
  toggledToday h' = Nat.odd n ∧
  streak h' = streak h + 1 ∧
  lastSeen h' = Some todayKey.
Proof.
  intros Hfresh Hn. destruct n as [|n]; [lia|].
  intros h'. split; [reflexivity|].
  assert (Hnew : seen_today todayKey h = false).
  { unfold seen_today. by apply bool_decide_eq_false_2. }
  destruct (toggles_new_day todayKey h n Hnew) as (Hseen & Hon & Hstreak).
  fold h' in Hseen, Hon, Hstreak.
  split; [by rewrite Nat.odd_succ|]. split; [exact Hstreak|].
  unfold seen_today in Hseen. by apply bool_decide_eq_true in Hseen.
Qed.

Lemma same_day_toggles_witness :
  let today := "2024-05-01"%string in
  let h := new_habit "h1" "Drink water" in
  lastSeen h ≠ Some today ∧ (1 ≤ 3)%nat ∧
  toggledToday (Nat.iter 3 (Part001.toggleToday today) h) = true ∧
  streak (Nat.iter 3 (Part001.toggleToday today) h) = 1.
Proof.
  intros today h.
  assert (H1 : lastSeen h ≠ Some today) by discriminate.
  assert (H2 : (1 ≤ 3)%nat) by lia.
  split; [exact H1|]. split; [exact H2|].
  destruct (same_day_toggles today h 3 H1 H2) as (_ & Hon & Hs & _).
  split; [exact Hon | exact Hs].
Defined.

Example scenario_three_toggles :
  let today := "2024-05-01"%string in
  let h0 := new_habit "h1" "Drink water" in
  let h1 := Part001.toggleToday today h0 in
  let h2 := Part001.toggleToday today h1 in
  let h3 := Part001.toggleToday today h2 in
  (streak h1, toggledToday h1) = (1, true) ∧
  (streak h2, toggledToday h2) = (1, false) ∧
  (streak h3, toggledToday h3) = (1, true).
Proof. vm_compute. repeat split. Qed.

(** The record the daily reset builds from a habit, in the older revision. *)
Lemma dailyReset_lookup (todayKey : string) (hs : list HabitItem) (i : nat) :
  Part000.dailyReset todayKey hs !! i =
  (fun h => {| id := id h; title := title h; streak := streak h;
               lastSeen := lastSeen h;
               toggledToday := if seen_today todayKey h then toggledToday h else false |})
    <$> hs !! i.
Proof. unfold Part000.dailyReset. apply list_lookup_fmap. Qed.

Lemma dailyReset_agree (todayKey : string) (hs : list HabitItem) :
  Forall (fun h => lastSeen h ≠ Some EmptyString) hs →
  Part001.dailyReset todayKey hs = Part000.dailyReset todayKey hs.
Proof.
  induction 1 as [|h hs Hh _ IH]; [done|].
  unfold Part001.dailyReset, Part000.dailyReset in *. simpl.
  rewrite IH. by rewrite or_null_day_key.
Qed.

(** C8.  The daily reset keeps the list's length and order; each habit keeps
    its id, title, streak and [lastSeen]; its flag is kept when it was last
    seen today and cleared otherwise.  Both revisions agree on habits whose
    [lastSeen] is absent or a day key (a day key is never the empty
    string). *)
Theorem daily_reset_frame (todayKey : string) (hs : list HabitItem) :
  Forall (fun h => lastSeen h ≠ Some EmptyString) hs →
  Part001.dailyReset todayKey hs = Part000.dailyReset todayKey hs ∧
  length (Part000.dailyReset todayKey hs) = length hs ∧
  ∀ (i : nat) (h : HabitItem), hs !! i = Some h →
    ∃ h', Part000.dailyReset todayKey hs !! i = Some h' ∧
          id h' = id h ∧ title h' = title h ∧
          streak h' = streak h ∧ lastSeen h' = lastSeen h ∧
          toggledToday h' =
            (if bool_decide (lastSeen h = Some todayKey) then toggledToday h else false).
Proof.
  intros Hkeys. split; [by apply dailyReset_agree|].
  split; [unfold Part000.dailyReset; apply length_map|].
  intros i h Hi. rewrite dailyReset_lookup, Hi. simpl.
  eexists. split; [reflexivity|]. simpl. done.
Qed.

Lemma daily_reset_frame_witness :
  let today := "2024-05-02"%string in
  let stale := {| id := "a"; title := "Run"; toggledToday := true; streak := 3;
                  lastSeen := Some "2024-05-01"%string |} in
  let fresh := {| id := "b"; title := "Read"; toggledToday := true; streak := 7;
                  lastSeen := Some today |} in
  Forall (fun h => lastSeen h ≠ Some EmptyString) [stale; fresh] ∧
  Part001.dailyReset today [stale; fresh] =
    [ {| id := "a"; title := "Run"; toggledToday := false; streak := 3;
         lastSeen := Some "2024-05-01"%string |}; fresh ].
Proof.
  intros today stale fresh.
  assert (H : Forall (fun h => lastSeen h ≠ Some EmptyString) [stale; fresh]).
  { repeat constructor; discriminate. }
  split; [exact H|].
  destruct (daily_reset_frame today [stale; fresh] H) as (Hagree & _).
  rewrite Hagree. reflexivity.
Defined.

(** C10.  [toggleHabit] keeps the length of the list; a habit whose id
    differs from the given one is returned as it is, at the same position;
    hence with no matching id the whole list is unchanged.  This holds in both
    revisions. *)
Theorem toggleHabit_frame (i todayKey : string) (s : list HabitItem) :
  (Forall (fun h => id h ≠ i) s →
     Part001.toggleHabit i todayKey s = s ∧ Part000.toggleHabit i todayKey s = s) ∧
  length (Part001.toggleHabit i todayKey s) = length s ∧
  length (Part000.toggleHabit i todayKey s) = length s ∧
  (∀ (k : nat) (h : HabitItem), s !! k = Some h → id h ≠ i →
     Part001.toggleHabit i todayKey s !! k = Some h ∧
     Part000.toggleHabit i todayKey s !! k = Some h).
Proof.
  split; [|split; [|split]].
  - intros Hno. rewrite toggleHabit_agree.
    assert (H1 : Part001.toggleHabit i todayKey s = s); [|by rewrite H1].
    induction Hno as [|h s Hh _ IH]; [done|].
    unfold Part001.toggleHabit in *. simpl. rewrite IH.
    by rewrite bool_decide_eq_false_2.
  - unfold Part001.toggleHabit. apply length_map.
  - unfold Part000.toggleHabit. apply length_map.
  - intros k h Hk Hne. rewrite toggleHabit_agree.
    assert (H1 : Part001.toggleHabit i todayKey s !! k = Some h); [|by rewrite H1].
    unfold Part001.toggleHabit. rewrite list_lookup_fmap, Hk. simpl.
    by rewrite bool_decide_eq_false_2.
Qed.

Lemma toggleHabit_frame_witness :
  let today := "2024-05-02"%string in
  let a := new_habit "a" "Run" in
  let b := new_habit "b" "Read" in
  (Forall (fun h => id h ≠ "zz"%string) [a; b] ∧
   Part001.toggleHabit "zz" today [a; b] = [a; b]) ∧
  ([a; b] !! 1%nat = Some b ∧ id b ≠ "a"%string ∧
   Part001.toggleHabit "a" today [a; b] !! 1%nat = Some b).
Proof.
  intros today a b. split.
  - assert (H : Forall (fun h => id h ≠ "zz"%string) [a; b]).
    { repeat constructor; discriminate. }
    split; [exact H|].
    exact (proj1 (proj1 (toggleHabit_frame "zz" today [a; b]) H)).
  - assert (H1 : [a; b] !! 1%nat = Some b) by reflexivity.
    assert (H2 : id b ≠ "a"%string) by discriminate.
    split; [exact H1|]. split; [exact H2|].
    exact (proj1 (proj2 (proj2 (proj2 (toggleHabit_frame "a" today [a; b]))) 1%nat b H1 H2)).
Defined.

(** ** Persistence adapter *)

(** [loadState] catches whatever [JSON.parse] throws. *)
Lemma loadState_returns (JSON_parse : string → Completion JSON)
    (localStorage : gmap string string) :
  ∃ v, Part000.loadState JSON_parse localStorage = Return v ∧
       fst (Part001.loadState JSON_parse localStorage) = Return v.
Proof.
  unfold Part000.loadState, Part001.loadState, getItem.
  destruct (localStorage !! STORAGE_KEY) as [raw|]; simpl; [|by eexists].
  destruct raw as [|c raw]; simpl; [by eexists|].
  destruct (JSON_parse _); simpl; by eexists.
Qed.

Lemma App_init_null :
  App_init JNull =
  {| dark := JBool false; todos := JArr []; habits := JArr [];
     notes := JStr EmptyString; pomodoro := JSON_of_settings initial_default |}.
Proof. reflexivity. Qed.

(** C9.  When nothing is stored under ["dailyflow_v1"], or what is stored
    makes [JSON.parse] throw, [loadState] returns [null] without throwing and
    [App] starts from the defaults: light theme, no todos, no habits, empty
    notes, the 25/5/15/4 Pomodoro settings.  This holds in both revisions. *)
Theorem load_falls_back (JSON_parse : string → Completion JSON)
    (localStorage : gmap string string) :
  (localStorage !! "dailyflow_v1"%string = None ∨
   ∃ raw e, localStorage !! "dailyflow_v1"%string = Some raw ∧ JSON_parse raw = Throw e) →
  let defaults :=
    {| dark := JBool false; todos := JArr []; habits := JArr [];
       notes := JStr EmptyString;
       pomodoro := JSON_of_settings {| work := 25; short := 5; long := 15; cycles := 4 |} |} in
  Part000.loadState JSON_parse localStorage = Return JNull ∧
  fst (Part001.loadState JSON_parse localStorage) = Return JNull ∧
  App_000 JSON_parse localStorage = Return defaults ∧
  App_001 JSON_parse localStorage = Return defaults.
Proof.
  intros H defaults.
  assert (H0 : Part000.loadState JSON_parse localStorage = Return JNull ∧
               fst (Part001.loadState JSON_parse localStorage) = Return JNull).
  { unfold Part000.loadState, Part001.loadState, getItem, STORAGE_KEY.
    destruct H as [-> | (raw & e & -> & Hthrow)]; [done|].
    destruct raw as [|c raw]; simpl; [done|]. by rewrite Hthrow. }
  destruct H0 as [H0 H1]. unfold App_000, App_001. rewrite H0, H1.
  by rewrite App_init_null.
Qed.

Lemma load_falls_back_witness :
  let parse := fun _ : string => @Throw JSON "SyntaxError" in
  let corrupt : gmap string string := {[ "dailyflow_v1"%string := "{oops"%string ]} in
  (∃ raw e, corrupt !! "dailyflow_v1"%string = Some raw ∧ parse raw = Throw e) ∧
  Part000.loadState parse corrupt = Return JNull ∧
  Part000.loadState parse ∅ = Return JNull.
Proof.
  intros parse corrupt.
  assert (H : ∃ raw e, corrupt !! "dailyflow_v1"%string = Some raw ∧ parse raw = Throw e).
  { exists "{oops"%string, "SyntaxError"%string. split; reflexivity. }
  split; [exact H|]. split.
  - exact (proj1 (load_falls_back parse corrupt (or_intror H))).
  - exact (proj1 (load_falls_back parse ∅ (or_introl eq_refl))).
Defined.

(** * Further properties of the code *)

Example formatTime_1500 : formatTime 1500 = "25:00"%string.
Proof. vm_compute. reflexivity. Qed.

(** ** Pomodoro timer: whole phases and long runs *)

Lemma ticks_add (n m : nat) (st : PState) : ticks (n + m) st = ticks m (ticks n st).
Proof. unfold ticks. rewrite Nat.add_comm. apply Nat.iter_add. Qed.

(** Running a phase to its end: the last of [secondsLeft] ticks is the one
    that fires with one second left. *)
Lemma ticks_phase (st : PState) :
  running st = true → 1 ≤ secondsLeft st →
  ticks (Z.to_nat (secondsLeft st)) st = tick (apply_update st (SetSecondsLeft 1)).
Proof.
  intros Hr Hs. destruct (Z.to_nat (secondsLeft st)) as [|m] eqn:Hm; [lia|].
  change (ticks (S m) st) with (tick (ticks m st)).
  rewrite ticks_countdown by (done || lia). do 3 f_equal. lia.
Qed.

Lemma work_phase_end (s : Settings) (c : Z) :
  positive_settings s → 0 ≤ c →
  ticks (Z.to_nat (work s * 60)) (working s c) =
  resting s (if bool_decide ((c + 1) `mod` cycles s = 0) then M_long else M_short) (c + 1).
Proof.
  intros (Hw & Hs & Hl & Hc) H0.
  change (work s * 60) with (secondsLeft (working s c)).
  rewrite ticks_phase by (simpl; done || lia).
  rewrite tick_completes_work by done. simpl.
  rewrite js_rem_is_zero_spec by lia.
  destruct (bool_decide _); unfold resting; simpl; by rewrite js_or_nonzero by lia.
Qed.

Lemma break_phase_end (s : Settings) (k : Mode) (c : Z) :
  positive_settings s → k ≠ M_work →
  ticks (Z.to_nat (settings_get s k * 60)) (resting s k c) = working s c.
Proof.
  intros (Hw & Hs & Hl & Hc) Hk.
  change (settings_get s k * 60) with (secondsLeft (resting s k c)).
  rewrite ticks_phase; [|done|destruct k; simpl; lia].
  rewrite tick_completes_break.
  - unfold working. simpl. by rewrite work_seconds_nonzero by lia.
  - unfold completes_break. simpl. by rewrite bool_decide_eq_false_2.
Qed.

(** A work phase and the break it leads to. *)
Lemma work_then_break (s : Settings) (c : Z) :
  positive_settings s → 0 ≤ c →
  let k := if bool_decide ((c + 1) `mod` cycles s = 0) then M_long else M_short in
  ticks (Z.to_nat (work s * 60 + settings_get s k * 60)) (working s c) =
  working s (c + 1).
Proof.
  intros Hp H0 k. pose proof Hp as (Hw & Hs & Hl & Hc).
  assert (Hk : 0 < settings_get s k) by (subst k; destruct (bool_decide _); simpl; lia).
  rewrite Z2Nat.inj_add by lia. rewrite ticks_add.
  rewrite work_phase_end by done. fold k.
  apply break_phase_end; [done|]. subst k. by destruct (bool_decide _).
Qed.

(** X1.  With positive settings, a running work phase followed by the break
    it leads to takes exactly [work*60] plus that break's [*60] ticks, and the
    timer is then at the start of the next work phase with the counter one
    higher. *)
Theorem work_break_round (s : Settings) (c : Z) :
  positive_settings s → 0 ≤ c →
  let k := if bool_decide ((c + 1) `mod` cycles s = 0) then M_long else M_short in
  ticks (Z.to_nat (work s * 60)) (working s c) = resting s k (c + 1) ∧
  ticks (Z.to_nat (work s * 60 + settings_get s k * 60)) (working s c) =
  working s (c + 1).
Proof.
  intros Hp H0 k. split; [by apply work_phase_end | by apply work_then_break].
Qed.

Lemma work_break_round_witness :
  positive_settings initial_default ∧ 0 ≤ 3 ∧
  ticks 2400 (working initial_default 3) = working initial_default 4.
Proof.
  assert (Hp : positive_settings initial_default) by (vm_compute; repeat split).
  assert (H0 : 0 ≤ 3) by lia.
  split; [exact Hp|]. split; [exact H0|].
  pose proof (work_break_round initial_default 3 Hp H0) as T.
  apply proj2 in T. vm_compute in T. vm_compute. exact T.
Defined.

(** [k] rounds of work and short break, while the counter stays below
    [cycles]. *)
Lemma short_rounds (s : Settings) (k : nat) :
  positive_settings s → Z.of_nat k < cycles s →
  ticks (Z.to_nat (Z.of_nat k * ((work s + short s) * 60))) (working s 0) =
  working s (Z.of_nat k).
Proof.
  intros Hp. pose proof Hp as (Hw & Hs & Hl & Hc).
  induction k as [|k IH]; intros Hk; [done|].
  replace (Z.of_nat (S k) * ((work s + short s) * 60))
    with (Z.of_nat k * ((work s + short s) * 60) + (work s * 60 + short s * 60)) by lia.
  rewrite Z2Nat.inj_add by nia. rewrite ticks_add, IH by lia.
  pose proof (work_then_break s (Z.of_nat k) Hp ltac:(lia)) as R.
  rewrite bool_decide_eq_false_2 in R by (rewrite Z.mod_small; lia).
  simpl in R. rewrite R. f_equal. lia.
Qed.

(** X2.  With positive settings, a freshly started timer left running enters
    its first long break after exactly [cycles] work phases and [cycles - 1]
    short breaks, that is after [((cycles - 1) * (work + short) + work) * 60]
    ticks, with the long duration loaded and the counter at [cycles]; the long
    break then leads back to work. *)
Theorem first_long_break (s : Settings) :
  positive_settings s →
  let n := Z.to_nat (((cycles s - 1) * (work s + short s) + work s) * 60) in
  ticks n (start (usePomodoro s)) = resting s M_long (cycles s) ∧
  ticks (n + Z.to_nat (long s * 60)) (start (usePomodoro s)) = working s (cycles s).
Proof.
  intros Hp n. pose proof Hp as (Hw & Hs & Hl & Hc).
  assert (Hn : ticks n (start (usePomodoro s)) = resting s M_long (cycles s)).
  { subst n. rewrite fresh_running by lia. fold (working s 0).
    replace (((cycles s - 1) * (work s + short s) + work s) * 60)
      with (Z.of_nat (Z.to_nat (cycles s - 1)) * ((work s + short s) * 60) + work s * 60)
      by (rewrite Z2Nat.id by lia; ring).
    rewrite Z2Nat.inj_add by nia. rewrite ticks_add, short_rounds by (done || lia).
    rewrite work_phase_end by (done || lia).
    rewrite bool_decide_eq_true_2; [f_equal; lia|].
    replace (Z.of_nat (Z.to_nat (cycles s - 1)) + 1) with (cycles s) by lia.
    apply Z.mod_same. lia. }
  split; [exact Hn|].
  rewrite ticks_add, Hn. by apply (break_phase_end s M_long).
Qed.

Lemma first_long_break_witness :
  let s := {| work := 2; short := 1; long := 3; cycles := 3 |} in
  positive_settings s ∧
  ticks 480 (start (usePomodoro s)) = resting s M_long 3.
Proof.
  intros s.
  assert (Hp : positive_settings s) by (vm_compute; repeat split).
  split; [exact Hp|].
  pose proof (first_long_break s Hp) as T. apply proj1 in T.
  vm_compute in T. vm_compute. exact T.
Defined.

(** The four ways a tick can go. *)
Lemma tick_cases (st : PState) :
  completes_work st = true ∨
  completes_break st = true ∨
  (running st = false ∧ tick st = st) ∨
  (running st = true ∧ 1 < secondsLeft st ∧
   tick st = apply_update st (SetSecondsLeft (secondsLeft st - 1))).
Proof.
  destruct (running st) eqn:Er.
  - destruct (Z.leb_spec (secondsLeft st) 1) as [Hle|Hgt].
    + apply Z.leb_le in Hle. unfold completes_work, completes_break.
      rewrite Er, Hle. destruct (bool_decide (mode st = M_work)); simpl; auto.
    + right. right. right. by rewrite tick_countdown.
  - right. right. left. by rewrite tick_stopped.
Qed.

(** X3.  Pausing a running timer, waiting any number of seconds and starting
    it again gives back the very state it was paused in: settings, mode,
    seconds left, running flag and cycle counter; no second is lost or gained
    while paused. *)
Theorem pause_resume (st : PState) (n : nat) :
  running st = true →
  start (ticks n (pause st)) = st.
Proof.
  intros Hr. rewrite ticks_stopped by done. destruct st. simpl in *. by subst.
Qed.

Lemma pause_resume_witness :
  let st := ticks 7 (start (usePomodoro initial_default)) in
  running st = true ∧ start (ticks 100 (pause st)) = st.
Proof.
  intros st.
  assert (Hr : running st = true) by (vm_compute; reflexivity).
  split; [exact Hr|].
  exact (pause_resume st 100 Hr).
Defined.

(** One event, with a tick in either order, keeps the settings, the bounds
    on the countdown and the sign of the counter. *)
Lemma step_to_bounds (s : Settings) (st st' : PState) (e : Event) :
  positive_settings s →
  match e with NewSettings _ => False | _ => True end →
  step_to st e st' →
  settings st = s ∧ 0 ≤ secondsLeft st ≤ settings_get s (mode st) * 60 ∧ 0 ≤ cyclesDone st →
  settings st' = s ∧ 0 ≤ secondsLeft st' ≤ settings_get s (mode st') * 60 ∧
  0 ≤ cyclesDone st'.
Proof.
  intros (Hw & Hs & Hl & Hc) He Hstep (Hset & Hsec & Hcyc).
  assert (Htick : settings (tick st) = s ∧
            0 ≤ secondsLeft (tick st) ≤ settings_get s (mode (tick st)) * 60 ∧
            0 ≤ cyclesDone (tick st)).
  { destruct (tick_cases st) as [Ew|[Eb|[[_ ->]|(_ & Hgt & ->)]]].
    - rewrite tick_completes_work by done. simpl. rewrite Hset.
      destruct (js_rem_is_zero _ _); simpl; rewrite js_or_nonzero by lia;
        repeat split; lia.
    - rewrite tick_completes_break by done. simpl.
      rewrite Hset, work_seconds_nonzero by lia. repeat split; lia.
    - done.
    - simpl. repeat split; try done; lia. }
  destruct Hstep as [st e|st].
  - destruct e; simpl; try done.
    + rewrite Hset, work_seconds_nonzero by lia. simpl. repeat split; lia.
    + rewrite Hset, js_or_nonzero by (destruct k; simpl; lia).
      repeat split; try done; destruct k; simpl; lia.
  - destruct (completes_work st) eqn:Ew; [|destruct (completes_break st) eqn:Eb].
    + rewrite tick_at_dispatch_completes_work by done. simpl. rewrite Hset.
      destruct (js_rem_is_zero _ _); simpl; repeat split; lia.
    + rewrite tick_at_dispatch_completes_break by done. simpl.
      repeat split; try done; lia.
    + by rewrite tick_at_dispatch_other.
Qed.

(** A trace with every tick taken while rendering is one of the runs. *)
Lemma run_runs_to (evs : list Event) (st : PState) : runs_to evs st (run evs st).
Proof.
  revert st. induction evs as [|e evs IH]; intros st; [constructor|].
  apply (runs_cons e evs st (step st e)); [constructor|apply IH].
Qed.

(** X4.  As long as the settings are positive and are not replaced, every
    state the hook can reach, whichever order each tick is taken in, keeps
    the settings, shows a countdown between zero and the full length of the
    current mode, and has a non-negative cycle counter. *)
Theorem countdown_bounds (initial : Settings) (evs : list Event) (st : PState) :
  positive_settings initial → keeps_settings evs →
  runs_to evs (usePomodoro initial) st →
  settings st = initial ∧
  0 ≤ secondsLeft st ≤ settings_get initial (mode st) * 60 ∧
  0 ≤ cyclesDone st.
Proof.
  intros Hp Hk Hrun.
  assert (H0 : settings (usePomodoro initial) = initial ∧
               0 ≤ secondsLeft (usePomodoro initial)
                 ≤ settings_get initial (mode (usePomodoro initial)) * 60 ∧
               0 ≤ cyclesDone (usePomodoro initial)).
  { destruct Hp as (Hw & _). simpl. rewrite work_seconds_nonzero by lia.
    repeat split; lia. }
  revert H0 Hk Hrun. generalize (usePomodoro initial) as st0.
  intros st0 Hst Hk Hrun. revert Hst Hk.
  induction Hrun as [st|e evs st st' st'' Hstep _ IH]; intros Hst Hk; [exact Hst|].
  apply Forall_cons in Hk as [He Hk].
  apply IH; [|exact Hk]. by apply (step_to_bounds initial st st' e).
Qed.

(** A run followed by one more event. *)
Lemma runs_to_snoc (evs : list Event) (e : Event) (a b c : PState) :
  runs_to evs a b → step_to b e c → runs_to (evs ++ [e]) a c.
Proof.
  induction 1 as [x|e' es x y z Hxy _ IH]; intros Hlast.
  - apply (runs_cons e [] x c); [exact Hlast|constructor].
  - apply (runs_cons e' (es ++ [e]) x y); [exact Hxy|by apply IH].
Qed.

Lemma countdown_bounds_witness :
  let s := {| work := 1; short := 5; long := 15; cycles := 4 |} in
  let evs := Start :: repeat Tick 59 ++ [Start] in
  let st := tick_at_dispatch (run evs (usePomodoro s)) in
  positive_settings s ∧ keeps_settings (evs ++ [Tick]) ∧
  runs_to (evs ++ [Tick]) (usePomodoro s) st ∧
  0 ≤ secondsLeft st ≤ 300.
Proof.
  intros s evs st.
  assert (Hp : positive_settings s) by (vm_compute; repeat split).
  assert (Hk : keeps_settings (evs ++ [Tick])) by (repeat constructor).
  assert (Hr : runs_to (evs ++ [Tick]) (usePomodoro s) st).
  { apply (runs_to_snoc evs Tick (usePomodoro s) (run evs (usePomodoro s)) st).
    - apply run_runs_to.
    - apply step_at_dispatch. }
  split; [exact Hp|]. split; [exact Hk|]. split; [exact Hr|].
  pose proof (countdown_bounds s (evs ++ [Tick]) st Hp Hk Hr) as T.
  destruct T as (_ & T & _). vm_compute in T. vm_compute. exact T.
Defined.

(** X5.  When [cycles] is zero, [n % 0] is never [0]: every completed work
    phase leads to a short break, and the timer is never in the long break
    unless the long preset is selected. *)
Theorem no_long_break_without_cycles (initial : Settings) (evs : list Event) :
  cycles initial = 0 → never_selects_long evs →
  mode (run evs (usePomodoro initial)) ≠ M_long.
Proof.
  intros Hc Hk.
  assert (H0 : settings (usePomodoro initial) = initial ∧
               mode (usePomodoro initial) ≠ M_long) by done.
  revert H0. generalize (usePomodoro initial).
  assert (Hgoal : ∀ st, settings st = initial ∧ mode st ≠ M_long →
            settings (run evs st) = initial ∧ mode (run evs st) ≠ M_long);
    [|intros st Hst; by apply Hgoal].
  induction Hk as [|e evs He _ IH]; intros st [Hset Hm]; [done|].
  simpl. apply IH. destruct e; simpl; try done.
  - by destruct k.
  - destruct (tick_cases st) as [Ew|[Eb|[[_ ->]|(_ & _ & ->)]]]; try done.
    + rewrite tick_completes_work by done. simpl.
      unfold js_rem_is_zero. by rewrite Hset, Hc.
    + by rewrite tick_completes_break.
Qed.

Lemma no_long_break_without_cycles_witness :
  let s := {| work := 1; short := 1; long := 1; cycles := 0 |} in
  let evs := Start :: repeat Tick 200 in
  cycles s = 0 ∧ never_selects_long evs ∧
  mode (run evs (usePomodoro s)) ≠ M_long.
Proof.
  intros s evs.
  assert (Hc : cycles s = 0) by reflexivity.
  assert (Hk : never_selects_long evs) by (repeat constructor).
  split; [exact Hc|]. split; [exact Hk|].
  exact (no_long_break_without_cycles s evs Hc Hk).
Defined.

(** X6.  Negative lengths are loaded as they are, so the countdown is always
    negative and a running timer changes phase on every tick, going
    from work to a break and from a break to work. *)
Theorem negative_lengths_flip (s : Settings) (n : nat) :
  work s < 0 → short s < 0 → long s < 0 →
  let st := ticks n (start (usePomodoro s)) in
  secondsLeft st < 0 ∧
  (mode (tick st) = M_work ↔ mode st ≠ M_work).
Proof.
  intros Hw Hs Hl st.
  assert (Hinv : settings st = s ∧ running st = true ∧ secondsLeft st < 0).
  { subst st. induction n as [|n IH].
    - simpl. rewrite work_seconds_nonzero by lia. repeat split; lia.
    - change (ticks (S n) (start (usePomodoro s)))
        with (tick (ticks n (start (usePomodoro s)))).
      destruct IH as (Hset & Hr & Hneg).
      destruct (tick_cases (ticks n (start (usePomodoro s))))
        as [Ew|[Eb|[[Hr' _]|(_ & Hgt & _)]]]; [| |congruence|lia].
      + rewrite tick_completes_work by done. simpl. rewrite Hset.
        destruct (js_rem_is_zero _ _); simpl; rewrite js_or_nonzero by lia;
          repeat split; lia.
      + rewrite tick_completes_break by done. simpl.
        rewrite Hset, work_seconds_nonzero by lia. repeat split; lia. }
  destruct Hinv as (Hset & Hr & Hneg). split; [exact Hneg|].
  destruct (tick_cases st) as [Ew|[Eb|[[Hr' _]|(_ & Hgt & _)]]]; [| |congruence|lia].
  - rewrite tick_completes_work by done. simpl.
    unfold completes_work in Ew. apply andb_true_iff in Ew as [Ew _].
    apply andb_true_iff in Ew as [_ Ew]. apply bool_decide_eq_true in Ew.
    rewrite Ew. destruct (js_rem_is_zero _ _); split; intros; congruence.
  - rewrite tick_completes_break by done. simpl.
    unfold completes_break in Eb. apply andb_true_iff in Eb as [Eb _].
    apply andb_true_iff in Eb as [_ Eb]. apply negb_true_iff, bool_decide_eq_false in Eb.
    split; intros; done.
Qed.

Lemma negative_lengths_flip_witness :
  let s := {| work := -1; short := -1; long := -1; cycles := 4 |} in
  work s < 0 ∧ short s < 0 ∧ long s < 0 ∧
  secondsLeft (ticks 5 (start (usePomodoro s))) < 0.
Proof.
  intros s.
  assert (Hw : work s < 0) by reflexivity.
  assert (Hs : short s < 0) by reflexivity.
  assert (Hl : long s < 0) by reflexivity.
  split; [exact Hw|]. split; [exact Hs|]. split; [exact Hl|].
  exact (proj1 (negative_lengths_flip s 5 Hw Hs Hl)).
Defined.

(** ** Time display *)

Lemma formatTime_checked :
  forallb (fun n => String.eqb (formatTime (Z.of_nat n)) (two_by_two (Z.of_nat n)))
          (seq 0 (Z.to_nat 6000)) = true.
Proof. vm_compute. reflexivity. Qed.

Lemma digit_inj (a b : Z) : 0 ≤ a < 10 → 0 ≤ b < 10 → digit a = digit b → a = b.
Proof.
  intros Ha Hb H. unfold digit in H.
  apply (f_equal Ascii.nat_of_ascii) in H.
  rewrite !Ascii.nat_ascii_embedding in H by lia. lia.
Qed.

(** X7.  For a remaining time below 100 minutes [formatTime] gives exactly
    five characters: two digits of minutes, a colon, two digits of seconds;
    and two different remaining times are never displayed alike. *)
Theorem formatTime_mm_ss (s t : Z) :
  0 ≤ s < 6000 → 0 ≤ t < 6000 →
  formatTime s = two_by_two s ∧
  (formatTime s = formatTime t → s = t).
Proof.
  assert (Hfmt : ∀ x, 0 ≤ x < 6000 → formatTime x = two_by_two x).
  { intros x Hx. pose proof formatTime_checked as H.
    rewrite forallb_forall in H. specialize (H (Z.to_nat x)).
    rewrite Z2Nat.id in H by lia. apply String.eqb_eq, H, in_seq. lia. }
  intros Hs Ht. split; [by apply Hfmt|].
  rewrite !Hfmt by done. unfold two_by_two. intros H.
  injection H as H1 H2 H3 H4.
  apply digit_inj in H1; [|Z.to_euclidean_division_equations; lia..].
  apply digit_inj in H2; [|Z.to_euclidean_division_equations; lia..].
  apply digit_inj in H3; [|Z.to_euclidean_division_equations; lia..].
  apply digit_inj in H4; [|Z.to_euclidean_division_equations; lia..].
  Z.to_euclidean_division_equations. lia.
Qed.

Lemma formatTime_mm_ss_witness :
  0 ≤ 1500 < 6000 ∧ 0 ≤ 299 < 6000 ∧ formatTime 299 = "04:59"%string.
Proof.
  assert (H1 : 0 ≤ 1500 < 6000) by lia.
  assert (H2 : 0 ≤ 299 < 6000) by lia.
  split; [exact H1|]. split; [exact H2|].
  pose proof (formatTime_mm_ss 299 1500 H2 H1) as T. apply proj1 in T.
  rewrite T. reflexivity.
Defined.

(** ** Todo list *)

Lemma toggleTodo_absent (i : string) (s : list Todo.TodoItem) :
  Forall (fun t => Todo.id t ≠ i) s → toggleTodo i s = s.
Proof.
  induction 1 as [|t s Ht _ IH]; [done|].
  unfold toggleTodo in *. simpl. rewrite IH. by rewrite bool_decide_eq_false_2.
Qed.

Lemma delTodo_absent (i : string) (s : list Todo.TodoItem) :
  Forall (fun t => Todo.id t ≠ i) s → delTodo i s = s.
Proof.
  induction 1 as [|t s Ht _ IH]; [done|].
  unfold delTodo in *. simpl. rewrite IH. by rewrite bool_decide_eq_false_2.
Qed.

(** X8.  Toggling the same todo twice gives back the list as it was, whatever
    the list holds. *)
Theorem toggleTodo_twice (i : string) (s : list Todo.TodoItem) :
  toggleTodo i (toggleTodo i s) = s.
Proof.
  unfold toggleTodo. rewrite map_map. rewrite <- (map_id s) at 2.
  apply map_ext. intros t. destruct (decide (Todo.id t = i)) as [E|E].
  - rewrite (bool_decide_eq_true_2 _ E). simpl.
    rewrite (bool_decide_eq_true_2 _ E), negb_involutive. by destruct t.
  - rewrite (bool_decide_eq_false_2 _ E). by rewrite (bool_decide_eq_false_2 _ E).
Qed.

(** X9.  Deleting and toggling commute, for equal or different ids; in
    particular toggling a todo and then deleting it is the same as deleting
    it, and toggling a deleted todo changes nothing. *)
Theorem delTodo_toggleTodo (i j : string) (s : list Todo.TodoItem) :
  delTodo i (toggleTodo j s) = toggleTodo j (delTodo i s) ∧
  delTodo i (toggleTodo i s) = delTodo i s ∧
  toggleTodo i (delTodo i s) = delTodo i s.
Proof.
  assert (Hcomm : ∀ j, delTodo i (toggleTodo j s) = toggleTodo j (delTodo i s)).
  { clear j. intros j. unfold delTodo, toggleTodo.
    induction s as [|t s IH]; [done|]. simpl.
    destruct (bool_decide (Todo.id t = j)) eqn:Ej;
      destruct (bool_decide (Todo.id t = i)) eqn:Ei;
      simpl; rewrite ?Ei; simpl; rewrite ?Ej; by rewrite IH. }
  assert (Hgone : toggleTodo i (delTodo i s) = delTodo i s).
  { apply toggleTodo_absent. unfold delTodo. apply Forall_forall.
    intros t Ht. apply list_elem_of_In, filter_In in Ht as [_ Ht].
    apply negb_true_iff, bool_decide_eq_false in Ht. exact Ht. }
  split; [apply Hcomm|]. split; [by rewrite Hcomm|exact Hgone].
Qed.

(** X10.  When ids are unique, toggling an open todo lowers the "remaining"
    count by one and toggling a done todo raises it by one. *)
Theorem remaining_toggleTodo (s : list Todo.TodoItem) (t : Todo.TodoItem) :
  NoDup (map Todo.id s) → t ∈ s →
  (remaining (toggleTodo (Todo.id t) s) + (if Todo.done t then 0 else 1) =
   remaining s + (if Todo.done t then 1 else 0))%nat.
Proof.
  induction s as [|a s IH]; intros Hnd Hin; [by apply elem_of_nil in Hin|].
  simpl in Hnd. apply NoDup_cons in Hnd as [Ha Hnd].
  assert (Hrest : ∀ x, x ∈ s → Todo.id x ≠ Todo.id a).
  { intros x Hx E. apply Ha. rewrite <- E. apply list_elem_of_fmap. by exists x. }
  apply elem_of_cons in Hin as [->|Hin].
  - unfold remaining, toggleTodo. simpl. rewrite bool_decide_eq_true_2 by done.
    fold (toggleTodo (Todo.id a) s). rewrite toggleTodo_absent.
    + simpl. destruct (Todo.done a); simpl; lia.
    + apply Forall_forall. exact Hrest.
  - specialize (IH Hnd Hin). unfold remaining, toggleTodo in *. simpl.
    rewrite bool_decide_eq_false_2 by (intros E; by apply (Hrest t)).
    simpl. destruct (Todo.done a); simpl; lia.
Qed.

Lemma remaining_toggleTodo_witness :
  let a := {| Todo.id := "a"; Todo.text := "milk"; Todo.done := false; Todo.created := 1 |} in
  let b := {| Todo.id := "b"; Todo.text := "mail"; Todo.done := true; Todo.created := 2 |} in
  NoDup (map Todo.id [a; b]) ∧ a ∈ [a; b] ∧
  remaining [a; b] = 1%nat ∧ remaining (toggleTodo "a" [a; b]) = 0%nat.
Proof.
  intros a b.
  assert (Hnd : NoDup (map Todo.id [a; b])).
  { simpl. apply NoDup_cons. split; [|apply NoDup_singleton].
    intros H. apply list_elem_of_singleton in H. discriminate. }
  assert (Hin : a ∈ [a; b]) by apply list_elem_of_here.
  split; [exact Hnd|]. split; [exact Hin|]. split; [reflexivity|].
  pose proof (remaining_toggleTodo [a; b] a Hnd Hin) as T.
  vm_compute in T. vm_compute. congruence.
Defined.

(** X11.  Adding a todo under an id no other todo has and then deleting that
    id gives back the list, whether or not the text was blank; a blank text
    adds nothing.  This holds for both ways the source tests for a blank
    text. *)
Theorem addTodo_delTodo (trim : string → string) (i text : string) (now : Z)
    (s : list Todo.TodoItem) :
  Forall (fun t => Todo.id t ≠ i) s →
  delTodo i (addTodo trim i now text s) = s ∧
  delTodo i (addTodo_001 trim i now text s) = s ∧
  (trim text = EmptyString →
     addTodo trim i now text s = s ∧ addTodo_001 trim i now text s = s).
Proof.
  intros Hfresh. pose proof (delTodo_absent i s Hfresh) as Hdel.
  unfold addTodo, addTodo_001. repeat split.
  - destruct (falsy_string (trim text)); [done|].
    unfold delTodo in *. simpl. by rewrite bool_decide_eq_true_2.
  - destruct (falsy_string text || falsy_string (trim text)); [done|].
    unfold delTodo in *. simpl. by rewrite bool_decide_eq_true_2.
  - by rewrite H.
  - rewrite H. simpl. by rewrite orb_true_r.
Qed.

Lemma addTodo_delTodo_witness :
  let a := {| Todo.id := "a"; Todo.text := "milk"; Todo.done := false; Todo.created := 1 |} in
  Forall (fun t => Todo.id t ≠ "b"%string) [a] ∧
  delTodo "b" (addTodo (fun x => x) "b" 2 "mail" [a]) = [a].
Proof.
  intros a.
  assert (H : Forall (fun t => Todo.id t ≠ "b"%string) [a]).
  { repeat constructor. discriminate. }
  split; [exact H|].
  exact (proj1 (addTodo_delTodo (fun x => x) "b" "mail" 2 [a] H)).
Defined.

Lemma includes_empty (s : string) : includes s EmptyString = true.
Proof. by destruct s. Qed.

Lemma prefix_refl (s : string) : String.prefix s s = true.
Proof.
  induction s as [|c s IH]; [done|]. simpl.
  destruct (Ascii.ascii_dec c c); [exact IH|done].
Qed.

Lemma includes_refl (s : string) : includes s s = true.
Proof.
  destruct s as [|c s]; [done|].
  change (includes (String c s) (String c s))
    with (String.prefix (String c s) (String c s) || includes s (String c s)).
  by rewrite prefix_refl.
Qed.

(** X12.  The search is case-blind as far as [toLowerCase] is: a query whose
    lower-case form is empty shows every todo, in order, and a todo whose
    text has the same lower-case form as the query is always shown. *)
Theorem filtered_shows (toLowerCase : string → string) (query : string)
    (todos : list Todo.TodoItem) :
  (toLowerCase query = EmptyString → filtered toLowerCase query todos = todos) ∧
  (∀ t, t ∈ todos → toLowerCase (Todo.text t) = toLowerCase query →
        t ∈ filtered toLowerCase query todos).
Proof.
  split.
  - intros Hq. unfold filtered. rewrite Hq.
    induction todos as [|t todos IH]; [done|].
    simpl. by rewrite includes_empty, IH.
  - intros t Ht Heq. unfold filtered.
    apply list_elem_of_In, filter_In. split; [by apply list_elem_of_In|].
    rewrite Heq. apply includes_refl.
Qed.

Lemma filtered_shows_witness :
  let lower := fun x : string => x in
  let a := {| Todo.id := "a"; Todo.text := "milk"; Todo.done := false; Todo.created := 1 |} in
  lower EmptyString = EmptyString ∧ filtered lower EmptyString [a] = [a].
Proof.
  intros lower a.
  assert (H : lower EmptyString = EmptyString) by reflexivity.
  split; [exact H|].
  exact (proj1 (filtered_shows lower EmptyString [a]) H).
Defined.

(** ** Habit tracker over several days *)

Lemma toggleHabit_absent (i todayKey : string) (s : list HabitItem) :
  Forall (fun h => id h ≠ i) s → Part001.toggleHabit i todayKey s = s.
Proof.
  induction 1 as [|h s Hh _ IH]; [done|].
  unfold Part001.toggleHabit in *. simpl. rewrite IH.
  by rewrite bool_decide_eq_false_2.
Qed.

Lemma deleteHabit_absent (i : string) (s : list HabitItem) :
  Forall (fun h => id h ≠ i) s → deleteHabit i s = s.
Proof.
  induction 1 as [|h s Hh _ IH]; [done|].
  unfold deleteHabit in *. simpl. rewrite IH. by rewrite bool_decide_eq_false_2.
Qed.

Lemma deleteHabit_gone (i : string) (s : list HabitItem) :
  Forall (fun h => id h ≠ i) (deleteHabit i s).
Proof.
  apply Forall_forall. intros h Hh. unfold deleteHabit in Hh.
  apply list_elem_of_In, filter_In in Hh as [_ Hh].
  by apply negb_true_iff, bool_decide_eq_false in Hh.
Qed.

Lemma day_changes_bounds (last : option string) (days : list string) :
  0 ≤ day_changes last days ≤ Z.of_nat (length days).
Proof.
  revert last. induction days as [|d ds IH]; intros last; simpl; [lia|].
  specialize (IH (Some d)). destruct (bool_decide _); lia.
Qed.

(** X13.  Over any sequence of toggles, on whatever days, the streak grows by
    one at each toggle made on a day other than the day of the toggle before
    it (for the first toggle: other than the stored [lastSeen]) and at no other
    toggle.  It therefore never decreases, grows by at most one per toggle, and
    is not reset by a gap between days. *)
Theorem streak_counts_day_changes (days : list string) (h : HabitItem) :
  streak (toggle_on_days days h) = streak h + day_changes (lastSeen h) days ∧
  streak h ≤ streak (toggle_on_days days h) ≤ streak h + Z.of_nat (length days).
Proof.
  assert (H : streak (toggle_on_days days h) = streak h + day_changes (lastSeen h) days).
  { revert h. induction days as [|d ds IH]; intros h; [simpl; lia|].
    change (toggle_on_days (d :: ds) h) with (toggle_on_days ds (Part001.toggleToday d h)).
    rewrite IH. simpl. unfold seen_today.
    destruct (bool_decide (lastSeen h = Some d)); simpl; [|lia].
    destruct (toggledToday h); simpl; lia. }
  split; [exact H|]. rewrite H.
  pose proof (day_changes_bounds (lastSeen h) days). lia.
Qed.

(** Both revisions clear the flag alike. *)
Lemma seen_today_or_null (todayKey : string) (h : HabitItem) :
  todayKey ≠ EmptyString →
  bool_decide (or_null (lastSeen h) = Some todayKey) = seen_today todayKey h.
Proof.
  intros Hd. unfold seen_today. destruct (lastSeen h) as [[|c k]|]; simpl; try done.
  symmetry. apply bool_decide_eq_false_2. intros [= E]. by apply Hd.
Qed.

Lemma seen_today_record (d a b : string) (c : bool) (e : Z) (k : option string) :
  seen_today d {| id := a; title := b; toggledToday := c; streak := e; lastSeen := k |} =
  bool_decide (k = Some d).
Proof. reflexivity. Qed.

(** X14.  Running the daily reset a second time on the same day changes
    nothing more, in both revisions (with a day key that is not the empty
    string). *)
Theorem dailyReset_idempotent (todayKey : string) (hs : list HabitItem) :
  todayKey ≠ EmptyString →
  Part000.dailyReset todayKey (Part000.dailyReset todayKey hs) =
    Part000.dailyReset todayKey hs ∧
  Part001.dailyReset todayKey (Part001.dailyReset todayKey hs) =
    Part001.dailyReset todayKey hs.
Proof.
  intros Hd. unfold Part000.dailyReset, Part001.dailyReset. rewrite !map_map. split.
  - apply map_ext. intros h. unfold seen_today. simpl.
    by destruct (bool_decide (lastSeen h = Some todayKey)).
  - apply map_ext. intros h.
    rewrite seen_today_record, seen_today_or_null by done.
    cbn [id title toggledToday streak lastSeen].
    destruct (seen_today todayKey h), (lastSeen h) as [[|c k]|]; reflexivity.
Qed.

Lemma dailyReset_idempotent_witness :
  let today := "2024-05-02"%string in
  let h := {| id := "a"; title := "Run"; toggledToday := true; streak := 3;
              lastSeen := Some "2024-05-01"%string |} in
  today ≠ EmptyString ∧
  Part001.dailyReset today (Part001.dailyReset today [h]) = Part001.dailyReset today [h].
Proof.
  intros today h.
  assert (H : today ≠ EmptyString) by discriminate.
  split; [exact H|].
  exact (proj2 (dailyReset_idempotent today [h] H)).
Defined.

(** X15.  On a given day the daily reset and a toggle commute: resetting and
    then toggling a habit gives the same list as toggling and then resetting,
    so the reset never changes what a toggle of the same day computes. *)
Theorem dailyReset_toggleHabit (i todayKey : string) (hs : list HabitItem) :
  todayKey ≠ EmptyString →
  Part000.toggleHabit i todayKey (Part000.dailyReset todayKey hs) =
    Part000.dailyReset todayKey (Part000.toggleHabit i todayKey hs) ∧
  Part001.toggleHabit i todayKey (Part001.dailyReset todayKey hs) =
    Part001.dailyReset todayKey (Part001.toggleHabit i todayKey hs).
Proof.
  intros Hd.
  unfold Part000.toggleHabit, Part001.toggleHabit, Part000.dailyReset, Part001.dailyReset.
  rewrite !map_map. split; apply map_ext; intros h; simpl.
  - destruct (bool_decide (id h = i)); [|done].
    unfold Part000.toggleToday, seen_today. simpl.
    rewrite (bool_decide_eq_true_2 (Some todayKey = Some todayKey)) by done.
    destruct (bool_decide (lastSeen h = Some todayKey)), (toggledToday h); done.
  - destruct (bool_decide (id h = i)); simpl; [|done].
    unfold Part001.toggleToday.
    rewrite !seen_today_record, seen_today_or_null by done.
    cbn [id title toggledToday streak lastSeen].
    rewrite (bool_decide_eq_true_2 (Some todayKey = Some todayKey)) by done.
    destruct todayKey as [|c k]; [done|].
    destruct (seen_today (String c k) h), (toggledToday h); reflexivity.
Qed.

Lemma dailyReset_toggleHabit_witness :
  let today := "2024-05-02"%string in
  let h := {| id := "a"; title := "Run"; toggledToday := true; streak := 3;
              lastSeen := Some "2024-05-01"%string |} in
  today ≠ EmptyString ∧
  Part001.toggleHabit "a" today (Part001.dailyReset today [h]) =
    [ {| id := "a"; title := "Run"; toggledToday := true; streak := 4;
         lastSeen := Some today |} ].
Proof.
  intros today h.
  assert (H : today ≠ EmptyString) by discriminate.
  split; [exact H|].
  rewrite (proj2 (dailyReset_toggleHabit "a" today [h] H)). reflexivity.
Defined.

(** X16.  Toggling a habit and then deleting it is the same as deleting it,
    and toggling a deleted habit changes nothing, in both revisions. *)
Theorem deleteHabit_toggleHabit (i todayKey : string) (s : list HabitItem) :
  deleteHabit i (Part001.toggleHabit i todayKey s) = deleteHabit i s ∧
  deleteHabit i (Part000.toggleHabit i todayKey s) = deleteHabit i s ∧
  Part001.toggleHabit i todayKey (deleteHabit i s) = deleteHabit i s ∧
  Part000.toggleHabit i todayKey (deleteHabit i s) = deleteHabit i s.
Proof.
  assert (H1 : deleteHabit i (Part001.toggleHabit i todayKey s) = deleteHabit i s).
  { unfold deleteHabit, Part001.toggleHabit.
    induction s as [|h s IH]; [done|]. simpl.
    destruct (bool_decide (id h = i)) eqn:E; simpl; rewrite ?E; simpl; by rewrite IH. }
  assert (H2 : Part001.toggleHabit i todayKey (deleteHabit i s) = deleteHabit i s).
  { apply toggleHabit_absent, deleteHabit_gone. }
  rewrite !toggleHabit_agree. done.
Qed.

(** X17.  A habit added with a non-blank title under an id no other habit
    has goes to the end of the list with streak 0, in both revisions; its
    first toggle turns it on with streak 1 and leaves the other habits alone,
    and deleting it gives back the list. *)
Theorem addHabit_first_toggle (trim : string → string) (i title todayKey : string)
    (s : list HabitItem) :
  Forall (fun h => id h ≠ i) s → title ≠ EmptyString → trim title ≠ EmptyString →
  addHabit trim i title s = s ++ [new_habit i (trim title)] ∧
  addHabit_001 trim i title s = s ++ [new_habit i (trim title)] ∧
  Part001.toggleHabit i todayKey (addHabit trim i title s) =
    s ++ [ {| id := i; title := trim title; toggledToday := true; streak := 1;
              lastSeen := Some todayKey |} ] ∧
  deleteHabit i (addHabit trim i title s) = s.
Proof.
  intros Hfresh Hraw Htitle.
  assert (Hf : falsy_string (trim title) = false) by (by destruct (trim title)).
  assert (Hr : falsy_string title = false) by (by destruct title).
  assert (Hadd : addHabit trim i title s = s ++ [new_habit i (trim title)]).
  { unfold addHabit. by rewrite Hf. }
  split; [exact Hadd|]. split; [|split].
  - unfold addHabit_001. by rewrite Hf, Hr.
  - rewrite Hadd. unfold Part001.toggleHabit. rewrite map_app.
    fold (Part001.toggleHabit i todayKey s). rewrite toggleHabit_absent by done.
    simpl. by rewrite bool_decide_eq_true_2.
  - rewrite Hadd. unfold deleteHabit. rewrite List.filter_app.
    fold (deleteHabit i s). rewrite deleteHabit_absent by done.
    simpl. rewrite bool_decide_eq_true_2 by done. simpl. by rewrite app_nil_r.
Qed.

Lemma addHabit_first_toggle_witness :
  let a := new_habit "a" "Run" in
  Forall (fun h => id h ≠ "b"%string) [a] ∧
  Part001.toggleHabit "b" "2024-05-02" (addHabit (fun x => x) "b" "Read" [a]) =
    [a; {| id := "b"; title := "Read"; toggledToday := true; streak := 1;
           lastSeen := Some "2024-05-02"%string |}].
Proof.
  intros a.
  assert (H : Forall (fun h => id h ≠ "b"%string) [a]).
  { repeat constructor. discriminate. }
  assert (H1 : "Read"%string ≠ EmptyString) by discriminate.
  split; [exact H|].
  pose proof (addHabit_first_toggle (fun x => x) "b" "Read" "2024-05-02" [a] H H1 H1) as T.
  destruct T as (_ & _ & T & _). exact T.
Defined.

(** ** Saving, reloading and clearing *)

Lemma nullish_value (v d : JSON) : v ≠ JNull → nullish (Some v) d = v.
Proof. intros H. by destruct v. Qed.

(** Reading back the five fields of a snapshot none of which is [null]. *)
Lemma App_init_snapshot (st : AppState) :
  dark st ≠ JNull → todos st ≠ JNull → habits st ≠ JNull →
  notes st ≠ JNull → pomodoro st ≠ JNull →
  App_init (snapshot st) = st.
Proof.
  intros Hd Ht Hh Hn Hp. unfold App_init, snapshot, get_field.
  repeat (rewrite lookup_insert_eq || rewrite lookup_insert_ne by discriminate).
  rewrite !nullish_value by done. by destruct st.
Qed.

(** What [loadState] returns when the stored text is not empty. *)
Lemma loadState_stored (JSON_parse : string → Completion JSON)
    (localStorage : gmap string string) (raw : string) (v : JSON) :
  localStorage !! STORAGE_KEY = Some raw → raw ≠ EmptyString →
  JSON_parse raw = Return v →
  Part000.loadState JSON_parse localStorage = Return v ∧
  fst (Part001.loadState JSON_parse localStorage) = Return v.
Proof.
  intros Hraw Hne Hparse. unfold Part000.loadState, Part001.loadState, getItem.
  rewrite Hraw. destruct raw as [|c raw]; [done|]. simpl. by rewrite Hparse.
Qed.

(** Starting the application on storage that holds nothing under the key. *)
Lemma App_absent (JSON_parse : string → Completion JSON)
    (localStorage : gmap string string) :
  localStorage !! STORAGE_KEY = None →
  App_000 JSON_parse localStorage = Return (App_init JNull) ∧
  App_001 JSON_parse localStorage = Return (App_init JNull).
Proof.
  intros H. unfold App_000, App_001, Part000.loadState, Part001.loadState, getItem.
  by rewrite H.
Qed.

(** Starting the application on storage written by [persist]. *)
Lemma reload_saved (JSON_parse : string → Completion JSON)
    (JSON_stringify : JSON → string) (st : AppState)
    (localStorage : gmap string string) :
  JSON_parse (JSON_stringify (snapshot st)) = Return (snapshot st) →
  JSON_stringify (snapshot st) ≠ EmptyString →
  dark st ≠ JNull → todos st ≠ JNull → habits st ≠ JNull →
  notes st ≠ JNull → pomodoro st ≠ JNull →
  App_000 JSON_parse (persist JSON_stringify st localStorage) = Return st ∧
  App_001 JSON_parse (persist JSON_stringify st localStorage) = Return st.
Proof.
  intros Hparse Hne Hd Ht Hh Hn Hp.
  destruct (loadState_stored JSON_parse (persist JSON_stringify st localStorage)
              (JSON_stringify (snapshot st)) (snapshot st)) as [H0 H1];
    [apply lookup_insert_eq|done|done|].
  unfold App_000, App_001. by rewrite H0, H1, App_init_snapshot.
Qed.

(** X18.  Saving and reloading is a round trip: if [JSON.parse] reads back
    what [JSON.stringify] wrote for the snapshot, and no state cell is [null],
    then the application started on the saved storage begins in exactly the
    saved state, in both revisions.  A save replaces whatever was saved
    before. *)
Theorem save_load_roundtrip (JSON_parse : string → Completion JSON)
    (JSON_stringify : JSON → string) (st st0 : AppState)
    (localStorage : gmap string string) :
  JSON_parse (JSON_stringify (snapshot st)) = Return (snapshot st) →
  JSON_stringify (snapshot st) ≠ EmptyString →
  dark st ≠ JNull → todos st ≠ JNull → habits st ≠ JNull →
  notes st ≠ JNull → pomodoro st ≠ JNull →
  App_000 JSON_parse (persist JSON_stringify st localStorage) = Return st ∧
  App_001 JSON_parse (persist JSON_stringify st localStorage) = Return st ∧
  persist JSON_stringify st (persist JSON_stringify st0 localStorage) =
    persist JSON_stringify st localStorage.
Proof.
  intros Hparse Hne Hd Ht Hh Hn Hp.
  destruct (reload_saved JSON_parse JSON_stringify st localStorage) as [H0 H1];
    try done.
  split; [exact H0|]. split; [exact H1|].
  unfold persist, saveState. apply insert_insert_eq.
Qed.

Lemma save_load_roundtrip_witness :
  let st := {| dark := JBool true; todos := JArr []; habits := JArr [];
               notes := JStr "hello"; pomodoro := JSON_of_settings initial_default |} in
  let stringify := fun _ : JSON => "{...}"%string in
  let parse := fun _ : string => Return (snapshot st) in
  parse (stringify (snapshot st)) = Return (snapshot st) ∧
  stringify (snapshot st) ≠ EmptyString ∧
  App_000 parse (persist stringify st ∅) = Return st.
Proof.
  intros st stringify parse.
  assert (H1 : parse (stringify (snapshot st)) = Return (snapshot st)) by reflexivity.
  assert (H2 : stringify (snapshot st) ≠ EmptyString) by discriminate.
  split; [exact H1|]. split; [exact H2|].
  refine (proj1 (save_load_roundtrip parse stringify st st ∅ H1 H2 _ _ _ _ _));
    discriminate.
Defined.

(** X19.  Right after the "Clear Data" handler nothing is stored, so a
    reload at that point starts from the defaults, theme and timer settings
    included; once the persisting effect has run on the cleared state, a
    reload starts with no todos, no habits, empty notes and the theme and
    timer settings kept. *)
Theorem clearData_then_persist (JSON_parse : string → Completion JSON)
    (JSON_stringify : JSON → string) (st : AppState)
    (localStorage : gmap string string) :
  let cleared := fst (clearData st localStorage) in
  let storage := snd (clearData st localStorage) in
  JSON_parse (JSON_stringify (snapshot cleared)) = Return (snapshot cleared) →
  JSON_stringify (snapshot cleared) ≠ EmptyString →
  dark st ≠ JNull → pomodoro st ≠ JNull →
  storage !! "dailyflow_v1"%string = None ∧
  App_000 JSON_parse storage = Return (App_init JNull) ∧
  App_000 JSON_parse (persist JSON_stringify cleared storage) =
    Return {| dark := dark st; todos := JArr []; habits := JArr [];
              notes := JStr EmptyString; pomodoro := pomodoro st |}.
Proof.
  intros cleared storage Hparse Hne Hd Hp.
  assert (Hnone : storage !! "dailyflow_v1"%string = None) by apply lookup_delete_eq.
  split; [exact Hnone|]. split.
  - by destruct (App_absent JSON_parse storage Hnone).
  - by destruct (reload_saved JSON_parse JSON_stringify cleared storage).
Qed.

Lemma clearData_then_persist_witness :
  let st := {| dark := JBool true; todos := JArr [JStr "t"]; habits := JArr [];
               notes := JStr "hello"; pomodoro := JSON_of_settings initial_default |} in
  let cleared := fst (clearData st ∅) in
  let stringify := fun _ : JSON => "{...}"%string in
  let parse := fun _ : string => Return (snapshot cleared) in
  parse (stringify (snapshot cleared)) = Return (snapshot cleared) ∧
  stringify (snapshot cleared) ≠ EmptyString ∧
  App_000 parse (persist stringify cleared (snd (clearData st ∅))) = Return cleared.
Proof.
  intros st cleared stringify parse.
  assert (H1 : parse (stringify (snapshot cleared)) = Return (snapshot cleared))
    by reflexivity.
  assert (H2 : stringify (snapshot cleared) ≠ EmptyString) by discriminate.
  split; [exact H1|]. split; [exact H2|].
  refine (proj2 (proj2 (clearData_then_persist parse stringify st ∅ H1 H2 _ _)));
    discriminate.
Defined.

(** X20.  A stored text that is empty, or that parses to anything but an
    object (a number, a string, an array, [null], a boolean), is treated like
    no stored state: the application starts from the defaults, in both
    revisions. *)
Theorem non_object_snapshot (JSON_parse : string → Completion JSON)
    (localStorage : gmap string string) (raw : string) :
  localStorage !! "dailyflow_v1"%string = Some raw →
  (raw = EmptyString ∨ ∃ v, JSON_parse raw = Return v ∧ ∀ o, v ≠ JObj o) →
  App_000 JSON_parse localStorage = Return (App_init JNull) ∧
  App_001 JSON_parse localStorage = Return (App_init JNull).
Proof.
  intros Hraw [->|(v & Hparse & Hobj)].
  - unfold App_000, App_001, Part000.loadState, Part001.loadState, getItem, STORAGE_KEY.
    by rewrite Hraw.
  - assert (Hinit : App_init v = App_init JNull).
    { destruct v; try done. by destruct (Hobj o). }
    destruct raw as [|c raw].
    + unfold App_000, App_001, Part000.loadState, Part001.loadState, getItem, STORAGE_KEY.
      by rewrite Hraw.
    + destruct (loadState_stored JSON_parse localStorage (String c raw) v) as [H0 H1];
        try done.
      unfold App_000, App_001. by rewrite H0, H1, Hinit.
Qed.

Lemma non_object_snapshot_witness :
  let parse := fun _ : string => Return (JNum 5) in
  let storage : gmap string string := {[ "dailyflow_v1"%string := "5"%string ]} in
  storage !! "dailyflow_v1"%string = Some "5"%string ∧
  App_000 parse storage = Return (App_init JNull).
Proof.
  intros parse storage.
  assert (H : storage !! "dailyflow_v1"%string = Some "5"%string) by reflexivity.
  split; [exact H|].
  refine (proj1 (non_object_snapshot parse storage "5" H (or_intror _))).
  exists (JNum 5). split; [reflexivity|discriminate].
Defined.
